(** * Orca: AIS ingest pipeline and viewport query service

    A shallow embedding of [backend/ingest_service.py] and
    [backend/api_service.py], and the properties of the ingestion pipeline
    (decoder, batch accumulator, sink writer, reconnect backoff) and of the
    viewport query that are stated about them.

    Conventions of the embedding:
    - Python integers are [Z]; Python floats are [pyfloat], a finite float
      being represented by its exact rational value (every comparison the
      code makes is against an integer constant, which Python evaluates
      exactly);
    - a [datetime] is its instant on the UTC time line, in microseconds,
      and whether it carries a time zone: Python refuses to order an
      offset-naive and an offset-aware one;
    - a Python exception is the [Raise] case of [res]; [try]/[except] is a
      match on it;
    - reads of the clocks, the outcome of [queue.get] and the faults of the
      database are inputs of the step functions. *)

From Stdlib Require Import ZArith QArith Qminmax Bool List String Ascii Lia.
From Stdlib Require Import Permutation Sorted.
Import ListNotations.

Local Open Scope Z_scope.
Local Set Warnings "-register-all".

(* ------------------------------------------------------------------ *)
(** ** Python values *)

Module Py.

(** Python [float]: finite values by their exact rational value, and the
    three non-finite ones ([json.loads] and [float()] both produce them). *)
Inductive pyfloat : Type :=
| Fin (q : Q)
| PosInf
| NegInf
| NaN.

(** [a <= b] on floats (IEEE: every comparison with NaN is false). *)
Definition fle (a b : pyfloat) : bool :=
  match a, b with
  | NaN, _ | _, NaN => false
  | NegInf, _ => true
  | _, PosInf => true
  | Fin p, Fin q => Qle_bool p q
  | _, _ => false
  end.

(** [a == b] on floats. *)
Definition feq (a b : pyfloat) : bool :=
  match a, b with
  | Fin p, Fin q => Qeq_bool p q
  | PosInf, PosInf => true
  | NegInf, NegInf => true
  | _, _ => false
  end.

(** [a < b] on floats. *)
Definition flt (a b : pyfloat) : bool := fle a b && negb (feq a b).

Definition of_Z (z : Z) : pyfloat := Fin (inject_Z z).

(** The value [json.loads] returns: [dict] as an association list in
    insertion order, [int] and [float] kept apart as Python does. *)
Inductive json : Type :=
| JNull
| JBool (b : bool)
| JInt (z : Z)
| JFloat (f : pyfloat)
| JStr (s : string)
| JArr (l : list json)
| JObj (kv : list (string * json)).

Inductive exn : Type :=
| AttributeError
| TypeError
| ValueError
| JSONDecodeError
| DatabaseError.

(** Outcome of a Python expression: a value or a raised exception. *)
Inductive res (A : Type) : Type :=
| Ok (a : A)
| Raise (e : exn).
Arguments Ok {A} a.
Arguments Raise {A} e.

Definition bind {A B : Type} (m : res A) (k : A -> res B) : res B :=
  match m with
  | Ok a => k a
  | Raise e => Raise e
  end.

(** A [datetime]: offset-aware when [tzinfo] is set, offset-naive
    otherwise. *)
Record datetime : Type := {
  aware : bool;
  instant : Z
}.

(** What [datetime.utcnow()] returns: the time of the clock, without a
    time zone. *)
Definition naive (t : Z) : datetime := {| aware := false; instant := t |}.

(** [a > b] on datetimes: [TypeError] ("can't compare offset-naive and
    offset-aware datetimes") when exactly one of them is aware. *)
Definition dt_gt (a b : datetime) : res bool :=
  if Bool.eqb (aware a) (aware b) then Ok (instant b <? instant a)
  else Raise TypeError.

(** Numeric value of an operand of a comparison; [bool] is a subtype of
    [int] in Python. *)
Definition num (v : json) : option pyfloat :=
  match v with
  | JBool b => Some (of_Z (if b then 1 else 0))
  | JInt z => Some (of_Z z)
  | JFloat f => Some f
  | _ => None
  end.

(** [bool(v)]. *)
Definition truthy (v : json) : bool :=
  match v with
  | JNull => false
  | JBool b => b
  | JInt z => negb (z =? 0)
  | JFloat f => negb (feq f (of_Z 0))
  | JStr s => negb (String.eqb s EmptyString)
  | JArr l => match l with [] => false | _ => true end
  | JObj kv => match kv with [] => false | _ => true end
  end.

Definition is_None (v : json) : bool :=
  match v with JNull => true | _ => false end.

(** [v <= c], [c <= v], [v < c] for an integer constant [c]: numeric for
    numbers, [TypeError] for [None], [str], [list] and [dict]. *)
Definition le_int (v : json) (c : Z) : res bool :=
  match num v with
  | Some f => Ok (fle f (of_Z c))
  | None => Raise TypeError
  end.

Definition int_le (c : Z) (v : json) : res bool :=
  match num v with
  | Some f => Ok (fle (of_Z c) f)
  | None => Raise TypeError
  end.

Definition lt_int (v : json) (c : Z) : res bool :=
  match num v with
  | Some f => Ok (flt f (of_Z c))
  | None => Raise TypeError
  end.

(** The chained comparison [lo <= v <= hi]. *)
Definition between (lo : Z) (v : json) (hi : Z) : res bool :=
  bind (int_le lo v) (fun b => if b then le_int v hi else Ok false).

(** The chained comparison [lo <= v < hi]. *)
Definition between_excl (lo : Z) (v : json) (hi : Z) : res bool :=
  bind (int_le lo v) (fun b => if b then lt_int v hi else Ok false).

Fixpoint assoc (k : string) (kv : list (string * json)) : option json :=
  match kv with
  | [] => None
  | (k', v) :: rest => if String.eqb k' k then Some v else assoc k rest
  end.

(** [d.get(k, default)]: only [dict] has the method. *)
Definition get (d : json) (k : string) (default : json) : res json :=
  match d with
  | JObj kv => Ok (match assoc k kv with Some v => v | None => default end)
  | _ => Raise AttributeError
  end.

(** The field [k] of an object, [default] when there is none. *)
Definition lookup (d : json) (k : string) (default : json) : json :=
  match get d k default with
  | Ok v => v
  | Raise _ => JNull
  end.

(** [v == s] for a string literal [s]. *)
Definition eq_str (v : json) (s : string) : bool :=
  match v with
  | JStr s' => String.eqb s' s
  | _ => false
  end.

(** [a == b] on the values that pass as dictionary keys here (numbers). Two
    keys are the same entry of a [dict] when they are equal. *)
Definition key_eqb (a b : json) : bool :=
  match num a, num b with
  | Some x, Some y => feq x y
  | _, _ => false
  end.

(** [s.startswith(p)]. *)
Fixpoint starts_with (p s : string) : bool :=
  match p, s with
  | EmptyString, _ => true
  | String a p', String b s' => Ascii.eqb a b && starts_with p' s'
  | String _ _, EmptyString => false
  end.

(** [s.replace(old, new)] for a non-empty [old]: non-overlapping
    occurrences, left to right. [skip] counts the characters of an
    occurrence still to be dropped. *)
Fixpoint replace_from (skip : nat) (old new s : string) : string :=
  match s with
  | EmptyString => EmptyString
  | String c s' =>
      match skip with
      | S n => replace_from n old new s'
      | O =>
          if starts_with old s
          then new ++ replace_from (String.length old - 1) old new s'
          else String c (replace_from O old new s')
      end
  end.

Definition replace (s old new : string) : string := replace_from O old new s.

(** [s[:n]]. *)
Definition slice_to (n : nat) (s : string) : string := substring 0 n s.

End Py.

Import Py.

Declare Scope py_scope.
Notation "x <- m ;; k" := (bind m (fun x => k))
  (at level 61, m at next level, right associativity) : py_scope.
Local Open Scope py_scope.

(* ------------------------------------------------------------------ *)
(** ** The ingest service ([ingest_service.py]) *)

Module Ingest.

(** The dictionary [extract_vessel_data] returns ([processed_data]). *)
Record vessel_data : Type := {
  mmsi : json;
  latitude : json;
  longitude : json;
  course : json;
  speed : json;
  ship_type : json;
  geohash : string;
  geohash_5 : string;
  last_updated : datetime
}.

(** [self.stats] (the counters; [start_time] is only used for logging). *)
Record stats : Type := {
  messages_received : Z;
  position_reports : Z;
  vessels_upserted : Z;
  batches_processed : Z;
  errors : Z
}.

Definition count_error (s : stats) : stats :=
  {| messages_received := messages_received s;
     position_reports := position_reports s;
     vessels_upserted := vessels_upserted s;
     batches_processed := batches_processed s;
     errors := errors s + 1 |}.

Definition count_position_report (s : stats) : stats :=
  {| messages_received := messages_received s;
     position_reports := position_reports s + 1;
     vessels_upserted := vessels_upserted s;
     batches_processed := batches_processed s;
     errors := errors s |}.

Definition count_batch (n : Z) (s : stats) : stats :=
  {| messages_received := messages_received s;
     position_reports := position_reports s;
     vessels_upserted := vessels_upserted s + n;
     batches_processed := batches_processed s + 1;
     errors := errors s |}.

(** *** Python [dict] keyed by a vessel identifier

    Insertion order is kept; assigning to an existing key keeps the key and
    its position and replaces the value. *)
Section Dict.
Context {V : Type}.

Definition dict : Type := list (json * V).

Fixpoint dict_get (k : json) (d : dict) : option V :=
  match d with
  | [] => None
  | (k', v) :: rest => if key_eqb k' k then Some v else dict_get k rest
  end.

Fixpoint dict_set (k : json) (v : V) (d : dict) : dict :=
  match d with
  | [] => [(k, v)]
  | (k', v') :: rest =>
      if key_eqb k' k then (k', v) :: rest else (k', v') :: dict_set k v rest
  end.

Definition dict_values (d : dict) : list V := map snd d.

Definition dict_len (d : dict) : Z := Z.of_nat (List.length d).

Definition dict_nonempty (d : dict) : bool :=
  match d with [] => false | _ => true end.

(** No two entries have equal keys. *)
Definition distinct_keys (d : dict) : Prop :=
  forall i j k1 v1 k2 v2,
    i <> j ->
    nth_error d i = Some (k1, v1) ->
    nth_error d j = Some (k2, v2) ->
    key_eqb k1 k2 = false.
End Dict.
Arguments dict V : clear implicits.

(** *** The [vessels] table behind [self.db_conn] *)

(** One row of [vessels], with the columns [batch_upsert] writes. *)
Record row : Type := {
  r_mmsi : json;
  r_latitude : json;
  r_longitude : json;
  r_location : json * json;
  r_course : json;
  r_speed : json;
  r_ship_type : json;
  r_geohash : string;
  r_geohash_5 : string;
  r_last_updated : datetime;
  r_received_at : Z
}.

Definition table : Type := dict row.

(** The connection: what is committed (visible to every reader) and the
    view of the open transaction. *)
Record connection : Type := {
  committed : table;
  pending : table
}.

(** Where the database makes a transaction fail, if it does. *)
Inductive fault : Type :=
| NoFault
| FailAtRow (k : nat)
| FailAtCommit.

Definition fails_at (f : fault) (i : nat) : bool :=
  match f with
  | FailAtRow k => Nat.eqb k i
  | _ => false
  end.

(** Modelled from the spec: the declaration of the [vessels] table is not
    part of the sources; a row inserted without a value for [received_at]
    gets the column default, which the data model describes as the
    timestamp set at persistence time, server-side: the server's [NOW()]. *)
Definition received_at_default (now : Z) : Z := now.

(** The [VALUES] tuple of one vessel, as a fresh row. *)
Definition inserted_row (now : Z) (v : vessel_data) : row :=
  {| r_mmsi := mmsi v;
     r_latitude := latitude v;
     r_longitude := longitude v;
     r_location := (longitude v, latitude v);
     r_course := course v;
     r_speed := speed v;
     r_ship_type := ship_type v;
     r_geohash := geohash v;
     r_geohash_5 := geohash_5 v;
     r_last_updated := last_updated v;
     r_received_at := received_at_default now |}.

(** The [DO UPDATE SET] clause: every column but the key from [EXCLUDED],
    [received_at = NOW()]. *)
Definition updated_row (now : Z) (old : row) (v : vessel_data) : row :=
  {| r_mmsi := r_mmsi old;
     r_latitude := latitude v;
     r_longitude := longitude v;
     r_location := (longitude v, latitude v);
     r_course := course v;
     r_speed := speed v;
     r_ship_type := ship_type v;
     r_geohash := geohash v;
     r_geohash_5 := geohash_5 v;
     r_last_updated := last_updated v;
     r_received_at := now |}.

(** [INSERT ... ON CONFLICT (mmsi) DO UPDATE] for one tuple. *)
Definition upsert_row (now : Z) (t : table) (v : vessel_data) : table :=
  match dict_get (mmsi v) t with
  | None => dict_set (mmsi v) (inserted_row now v) t
  | Some old => dict_set (mmsi v) (updated_row now old v) t
  end.

(** [execute_values]: the tuples are applied to the open transaction in
    order; a fault at tuple [i] raises with the earlier tuples applied. *)
Fixpoint execute_values (now : Z) (f : fault) (i : nat)
    (values : list vessel_data) (t : table) : table * res unit :=
  match values with
  | [] => (t, Ok tt)
  | v :: rest =>
      if fails_at f i then (t, Raise DatabaseError)
      else execute_values now f (S i) rest (upsert_row now t v)
  end.

(** [self.db_conn.commit()]. *)
Definition commit (f : fault) (c : connection) : res connection :=
  match f with
  | FailAtCommit => Raise DatabaseError
  | _ => Ok {| committed := pending c; pending := pending c |}
  end.

(** [self.db_conn.rollback()]: it discards what the transaction did, or
    raises (on a connection that is closed, for one) and discards
    nothing. *)
Definition rollback (raises : bool) (c : connection) : res connection :=
  if raises then Raise DatabaseError
  else Ok {| committed := committed c; pending := committed c |}.

(** The fields of [self] that the loops change. *)
Record service : Type := {
  st : stats;
  db : connection
}.

(** [batch_upsert(batch)] with the server time [now] of the transaction:
    the service it leaves and, when the [rollback] of the handler of line
    317 raises, the exception that leaves the function with it, before
    the error is counted. *)
Definition batch_upsert (now : Z) (f : fault) (rollback_raises : bool)
    (s : service) (batch : list vessel_data) : service * res unit :=
  match batch with
  | [] => (s, Ok tt)
  | _ =>
      let (t, r) := execute_values now f 0 batch (pending (db s)) in
      let c := {| committed := committed (db s); pending := t |} in
      match (_ <- r ;; commit f c) with
      | Ok c' =>
          ({| st := count_batch (Z.of_nat (List.length batch)) (st s);
              db := c' |}, Ok tt)
      | Raise _ =>
          match rollback rollback_raises c with
          | Ok c' => ({| st := count_error (st s); db := c' |}, Ok tt)
          | Raise x => ({| st := st s; db := c |}, Raise x)
          end
      end
  end.

(** Every entry is filed under the identifier of its record. *)
Definition filed (b : dict vessel_data) : Prop :=
  Forall (fun kv => fst kv = mmsi (snd kv)
                    \/ key_eqb (fst kv) (mmsi (snd kv)) = true) b.

(** No two records of the list are of the same vessel. *)
Definition distinct_vessels (l : list vessel_data) : Prop :=
  forall i j v w,
    i <> j ->
    nth_error l i = Some v ->
    nth_error l j = Some w ->
    key_eqb (mmsi v) (mmsi w) = false.


(** Two rows that differ at most in [received_at]. *)
Definition same_observation (r1 r2 : row) : Prop :=
  r_mmsi r1 = r_mmsi r2
  /\ r_latitude r1 = r_latitude r2
  /\ r_longitude r1 = r_longitude r2
  /\ r_location r1 = r_location r2
  /\ r_course r1 = r_course r2
  /\ r_speed r1 = r_speed r2
  /\ r_ship_type r1 = r_ship_type r2
  /\ r_geohash r1 = r_geohash r2
  /\ r_geohash_5 r1 = r_geohash_5 r2
  /\ r_last_updated r1 = r_last_updated r2.

(** Whether the database makes the transaction of [batch] fail. *)
Definition tx_fails (f : fault) (batch : list vessel_data) : bool :=
  match batch, f with
  | [], _ => false
  | _, NoFault => false
  | _, FailAtRow k => Nat.ltb k (List.length batch)
  | _, FailAtCommit => true
  end.

(** No transaction is open: the connection shows what is committed. *)
Definition idle (c : connection) : Prop := pending c = committed c.

(** *** The shape of a position report

    The fields of a message of the feed, and the types the feed gives
    them: [MetaData], [Message] and [PositionReport] are objects, [MMSI]
    is an integer, [Latitude], [Longitude], [Cog] and [Sog] are numbers;
    each may be missing or [null]. *)
Definition msg_metadata (message : json) : json :=
  lookup message "MetaData" (JObj []).

Definition msg_report (message : json) : json :=
  lookup (lookup message "Message" (JObj [])) "PositionReport" (JObj []).

Definition msg_mmsi (message : json) : json :=
  lookup (msg_metadata message) "MMSI" JNull.

Definition msg_latitude (message : json) : json :=
  lookup (msg_report message) "Latitude" JNull.

Definition msg_longitude (message : json) : json :=
  lookup (msg_report message) "Longitude" JNull.

Definition msg_cog (message : json) : json :=
  lookup (msg_report message) "Cog" JNull.

Definition msg_sog (message : json) : json :=
  lookup (msg_report message) "Sog" JNull.

Definition is_object (v : json) : bool :=
  match v with JObj _ => true | _ => false end.

Definition int_or_null (v : json) : bool :=
  match v with JNull | JInt _ => true | _ => false end.

Definition number_or_null (v : json) : bool :=
  match v with JNull | JInt _ | JFloat _ => true | _ => false end.

Definition well_shaped (message : json) : bool :=
  is_object message
  && is_object (msg_metadata message)
  && is_object (lookup message "Message" (JObj []))
  && is_object (msg_report message)
  && int_or_null (msg_mmsi message)
  && number_or_null (msg_latitude message)
  && number_or_null (msg_longitude message)
  && number_or_null (msg_cog message)
  && number_or_null (msg_sog message).

(** The vessel identifier is missing or not positive. *)
Definition bad_vessel_id (v : json) : Prop :=
  v = JNull \/ exists z, v = JInt z /\ z <= 0.

(** A number within [[lo, hi]]. *)
Definition inside (lo hi : Z) (v : json) : Prop :=
  exists q, num v = Some (Fin q) /\ (inject_Z lo <= q <= inject_Z hi)%Q.

(** A number within [[lo, hi)]. *)
Definition inside_excl (lo hi : Z) (v : json) : Prop :=
  exists q, num v = Some (Fin q) /\ (inject_Z lo <= q < inject_Z hi)%Q.

(** A field that is present and is not a number: a string, a list or an
    object. *)
Definition not_a_number (v : json) : Prop := v <> JNull /\ num v = None.

(** A field that is missing or not within [[lo, hi]]. *)
Definition missing_or_outside (lo hi : Z) (v : json) : Prop :=
  v = JNull \/ ~ inside lo hi v.

(** A negative number. *)
Definition negative (v : json) : Prop :=
  num v = Some NegInf \/ exists q, num v = Some (Fin q) /\ (q < 0)%Q.

(** *** The decoder and the accumulator loop

    [date_parser.parse] (dateutil) and [pgh.encode] (pygeohash) are library
    functions: the code is embedded over any such pair. [self.batch_size]
    and [self.batch_interval] come from the settings. *)
Section Pipeline.
Variable date_parse : string -> option datetime.
Variable pgh_encode : Q -> Q -> nat -> string.
Variable batch_size : Z.
Variable batch_interval : Z.

(** [pgh.encode(latitude, longitude, precision=7)]; it is reached with
    finite numbers only, anything else has been turned away before. *)
Definition encode_position (latitude longitude : json) : res string :=
  match num latitude, num longitude with
  | Some (Fin la), Some (Fin lo) => Ok (pgh_encode la lo 7)
  | _, _ => Raise TypeError
  end.

(** Lines 222-231: the observation time, with the fallback to
    [datetime.utcnow()] when the field is empty, is not a string
    ([.replace] raises) or does not parse. *)
Definition parse_timestamp (utcnow : Z) (timestamp : json) : datetime :=
  if truthy timestamp then
    match timestamp with
    | JStr s =>
        match date_parse (replace s " UTC" "") with
        | Some t => t
        | None => naive utcnow
        end
    | _ => naive utcnow
    end
  else naive utcnow.

(** Lines 207-245: the checks on the fields and the record they give. *)
Definition validate (utcnow : Z)
    (mmsi latitude longitude course speed ship_type timestamp : json)
    : res (option vessel_data) :=
  bad_mmsi <- (if negb (truthy mmsi) then Ok true else le_int mmsi 0) ;;
  if bad_mmsi then Ok None else
  bad_latitude <- (if is_None latitude then Ok true
                   else b <- between (-90) latitude 90 ;; Ok (negb b)) ;;
  if bad_latitude then Ok None else
  bad_longitude <- (if is_None longitude then Ok true
                    else b <- between (-180) longitude 180 ;; Ok (negb b)) ;;
  if bad_longitude then Ok None else
  course <- (if is_None course then Ok course
             else b <- between_excl 0 course 360 ;;
                  Ok (if b then course else JNull)) ;;
  speed <- (if is_None speed then Ok speed
            else b <- lt_int speed 0 ;; Ok (if b then JNull else speed)) ;;
  geohash <- encode_position latitude longitude ;;
  Ok (Some {| mmsi := mmsi;
              latitude := latitude;
              longitude := longitude;
              course := course;
              speed := speed;
              ship_type := ship_type;
              geohash := geohash;
              geohash_5 := slice_to 5 geohash;
              last_updated := parse_timestamp utcnow timestamp |}).

(** The body of the [try] of [extract_vessel_data]: the reads of lines
    196-205, then the checks. *)
Definition extract_body (utcnow : Z) (message : json)
    : res (option vessel_data) :=
  metadata <- get message "MetaData" (JObj []) ;;
  msg <- get message "Message" (JObj []) ;;
  position_report <- get msg "PositionReport" (JObj []) ;;
  mmsi <- get metadata "MMSI" JNull ;;
  latitude <- get position_report "Latitude" JNull ;;
  longitude <- get position_report "Longitude" JNull ;;
  course <- get position_report "Cog" JNull ;;
  speed <- get position_report "Sog" JNull ;;
  ship_type <- get metadata "ShipType" JNull ;;
  timestamp <- get metadata "time_utc" JNull ;;
  validate utcnow mmsi latitude longitude course speed ship_type timestamp.

(** [extract_vessel_data(message)]: [None] when a check fails or when
    anything raises. *)
Definition extract_vessel_data (utcnow : Z) (message : json)
    : option vessel_data :=
  match extract_body utcnow message with
  | Ok r => r
  | Raise _ => None
  end.

(** What a raw message is to the loop: [json.loads] raises
    [JSONDecodeError] on it, or returns a value. *)
Inductive raw_message : Type :=
| Unparsable
| Parsed (message : json).

Definition json_loads (m : raw_message) : res json :=
  match m with
  | Unparsable => Raise JSONDecodeError
  | Parsed message => Ok message
  end.

(** The locals of [process_message_queue] and the fields of [self]. *)
Record loop_state : Type := {
  batch : dict vessel_data;
  last_batch_time : Q;
  svc : service
}.

(** What one iteration reads from its environment. *)
Record tick : Type := {
  got : option raw_message;  (* [queue.get(timeout=0.1)], [None]: Empty *)
  utcnow : Z;                (* [datetime.utcnow()] in the decoder *)
  t_check : Q;               (* [time.time()] in the flush test *)
  t_reset : Q;               (* [time.time()] after a flush *)
  db_now : Z;                (* [NOW()] of the transaction *)
  db_fault : fault;
  db_rollback_raises : bool  (* [rollback()] raises *)
}.

(** Lines 164-169: keep the record if the vessel is new to the batch or
    the record is strictly newer than the one held; the comparison of
    line 167 raises when the two timestamps cannot be ordered. *)
Definition accumulate (b : dict vessel_data) (vessel : vessel_data)
    : res (dict vessel_data) :=
  match dict_get (mmsi vessel) b with
  | None => Ok (dict_set (mmsi vessel) vessel b)
  | Some held =>
      newer <- dt_gt (last_updated vessel) (last_updated held) ;;
      Ok (if newer then dict_set (mmsi vessel) vessel b else b)
  end.

(** [time.time() - last_batch_time >= self.batch_interval]. *)
Definition interval_elapsed (now last : Q) : bool :=
  Qle_bool (inject_Z batch_interval) (now - last).

(** The test of line 144. *)
Definition time_trigger (s : loop_state) (e : tick) : bool :=
  dict_nonempty (batch s) && interval_elapsed (t_check e) (last_batch_time s).

(** The test of lines 171-173. *)
Definition flush_trigger (s : loop_state) (e : tick) : bool :=
  (batch_size <=? dict_len (batch s)) || time_trigger s e.

(** Lines 174-176 (and 145-147): write, clear, restart the interval.
    When [batch_upsert] raises, the two assignments are not reached. *)
Definition flush (s : loop_state) (e : tick) : loop_state * res unit :=
  let (sv, r) := batch_upsert (db_now e) (db_fault e) (db_rollback_raises e)
                   (svc s) (dict_values (batch s)) in
  match r with
  | Ok _ =>
      ({| batch := []; last_batch_time := t_reset e; svc := sv |}, Ok tt)
  | Raise x =>
      ({| batch := batch s; last_batch_time := last_batch_time s;
          svc := sv |}, Raise x)
  end.

Definition with_stats (f : stats -> stats) (s : loop_state) : loop_state :=
  {| batch := batch s;
     last_batch_time := last_batch_time s;
     svc := {| st := f (st (svc s)); db := db (svc s) |} |}.

Definition with_batch (b : dict vessel_data) (s : loop_state) : loop_state :=
  {| batch := b; last_batch_time := last_batch_time s; svc := svc s |}.

(** Lines 158-169, up to the flush test: the state reached, and the
    exception, if one is on its way to the handler of line 178
    ([AttributeError] from [message.get], [TypeError] from the
    comparison of line 167, after the report has been counted). *)
Definition handle_message (s : loop_state) (e : tick) (message : json)
    : loop_state * res unit :=
  match get message "MessageType" JNull with
  | Raise x => (s, Raise x)
  | Ok message_type =>
      if eq_str message_type "PositionReport" then
        let s1 := with_stats count_position_report s in
        match extract_vessel_data (utcnow e) message with
        | Some vessel =>
            match accumulate (batch s1) vessel with
            | Ok b => (with_batch b s1, Ok tt)
            | Raise x => (s1, Raise x)
            end
        | None => (s1, Ok tt)
        end
      else (s, Ok tt)
  end.

(** The part of an iteration before the flush test of lines 171-173 (or
    of line 144 when the queue was empty): the state it leaves, and the
    value of the test when the iteration gets to evaluate one. The two
    [None] cases are the [continue] of line 156 and the handler of line
    178. *)
Definition receive (s : loop_state) (e : tick) : loop_state * option bool :=
  match got e with
  | None => (s, Some (time_trigger s e))
  | Some message_raw =>
      match json_loads message_raw with
      | Raise _ => (with_stats count_error s, None)
      | Ok message =>
          match handle_message s e message with
          | (s1, Raise _) => (with_stats count_error s1, None)
          | (s1, Ok _) => (s1, Some (flush_trigger s1 e))
          end
      end
  end.

(** The flush as the loop runs it: an exception out of [batch_upsert]
    ends in the handler of line 178, which counts an error. *)
Definition flush_in_loop (s : loop_state) (e : tick) : loop_state :=
  match flush s e with
  | (s1, Ok _) => s1
  | (s1, Raise _) => with_stats count_error s1
  end.

(** One iteration of the [while] of [process_message_queue]. *)
Definition iteration (s : loop_state) (e : tick) : loop_state :=
  let (s1, test) := receive s e in
  match test with
  | Some true => flush_in_loop s1 e
  | _ => s1
  end.

(** Whether the iteration hands the batch to [batch_upsert]. *)
Definition flushed (s : loop_state) (e : tick) : bool :=
  match snd (receive s e) with
  | Some true => true
  | _ => false
  end.

(** The iterations of the loop over what the environment supplies. *)
Definition run (s : loop_state) (es : list tick) : loop_state :=
  fold_left iteration es s.

(** No iteration of the run flushes: the run stays in one batch window. *)
Fixpoint one_window (s : loop_state) (es : list tick) : bool :=
  match es with
  | [] => true
  | e :: rest => negb (flushed s e) && one_window (iteration s e) rest
  end.

(** The record that the decoder hands to the accumulator in an iteration,
    if it hands one. *)
Definition accepted (e : tick) : option vessel_data :=
  match got e with
  | Some (Parsed message) =>
      if eq_str (lookup message "MessageType" JNull) "PositionReport"
      then extract_vessel_data (utcnow e) message
      else None
  | _ => None
  end.

(** The iteration receives an object whose [MessageType] is
    [PositionReport]. *)
Definition is_position_report (e : tick) : bool :=
  match got e with
  | Some (Parsed message) =>
      is_object message
      && eq_str (lookup message "MessageType" JNull) "PositionReport"
  | _ => false
  end.

(** The iteration receives a position report that the decoder turns
    away. *)
Definition validator_rejects (e : tick) : bool :=
  match got e with
  | Some (Parsed message) =>
      eq_str (lookup message "MessageType" JNull) "PositionReport"
      && match extract_vessel_data (utcnow e) message with
         | None => true
         | Some _ => false
         end
  | _ => false
  end.

(** The records accepted over a run, in order of arrival. *)
Definition records (es : list tick) : list vessel_data :=
  flat_map (fun e => match accepted e with Some r => [r] | None => [] end) es.

End Pipeline.

(** What lines 164-169 make of the batch when the comparison does not
    raise. *)
Definition merge (b : dict vessel_data) (vessel : vessel_data)
    : dict vessel_data :=
  match dict_get (mmsi vessel) b with
  | None => dict_set (mmsi vessel) vessel b
  | Some held =>
      if instant (last_updated held) <? instant (last_updated vessel)
      then dict_set (mmsi vessel) vessel b
      else b
  end.

(** What lines 164-169 leave in the batch, whether the comparison raised
    or not. *)
Definition held_after (b : dict vessel_data) (vessel : vessel_data)
    : dict vessel_data :=
  match accumulate b vessel with
  | Ok b' => b'
  | Raise _ => b
  end.

(** The timestamp of the record can be ordered against the one held for
    its vessel, if one is held. *)
Definition comparable (b : dict vessel_data) (vessel : vessel_data) : Prop :=
  match dict_get (mmsi vessel) b with
  | None => True
  | Some held => aware (last_updated vessel) = aware (last_updated held)
  end.

(** The records of each vessel have timestamps that can be ordered: all
    offset-naive or all offset-aware. *)
Definition comparable_per_vessel (recs : list vessel_data) : Prop :=
  forall r1 r2,
    In r1 recs -> In r2 recs ->
    key_eqb (mmsi r1) (mmsi r2) = true ->
    aware (last_updated r1) = aware (last_updated r2).

(** A record is the first of the newest records of a list. *)
Definition first_newest (recs : list vessel_data) (r : vessel_data) : Prop :=
  exists i,
    nth_error recs i = Some r /\
    (forall x, In x recs ->
               instant (last_updated x) <= instant (last_updated r)) /\
    (forall j x, (j < i)%nat -> nth_error recs j = Some x ->
                 instant (last_updated x) < instant (last_updated r)).

(** *** The reconnect loop ([connect_websocket]) *)

(** One pass through the body of the outer [while]: whether line 102 was
    reached (the subscription was sent), whether an exception reached the
    handler of line 117, and [self.running] as read at line 121. *)
Record attempt : Type := {
  subscribed : bool;
  raised : bool;
  running_after : bool
}.

(** The local [retry_delay] and the arguments of [asyncio.sleep], oldest
    first. *)
Record client : Type := {
  retry_delay : Z;
  sleeps : list Z;
  client_errors : Z
}.

Definition base_delay : Z := 5.
Definition max_delay : Z := 60.


Definition connect_attempt (c : client) (a : attempt) : client :=
  let d := if subscribed a then base_delay else retry_delay c in
  if raised a then
    if running_after a then
      {| retry_delay := Z.min (d * 2) max_delay;
         sleeps := sleeps c ++ [d];
         client_errors := client_errors c + 1 |}
    else
      {| retry_delay := d; sleeps := sleeps c;
         client_errors := client_errors c + 1 |}
  else
    {| retry_delay := d; sleeps := sleeps c;
       client_errors := client_errors c |}.

Definition connect_websocket (c : client) (l : list attempt) : client :=
  fold_left connect_attempt l c.

(** A connection or subscription failure while the service runs. *)
Definition failure : attempt :=
  {| subscribed := false; raised := true; running_after := true |}.



(** The waits of [n] failures in a row: the base, doubled at every
    failure, never above the ceiling. *)
Definition backoff_schedule (n : nat) : list Z :=
  map (fun k => Z.min (base_delay * 2 ^ Z.of_nat k) max_delay) (seq 0 n).

End Ingest.

(* ------------------------------------------------------------------ *)
(** ** The query service ([api_service.py]) *)

Module Api.

(** The columns of [vessels] that the query selects; also the fields of
    the [Vessel] model of the response ([last_updated] is rendered with
    [isoformat] there, which is not modelled). *)
Record vessel : Type := {
  mmsi : Z;
  latitude : Q;
  longitude : Q;
  course : option Q;
  speed : option Q;
  ship_type : option Z;
  last_updated : Z
}.

(** [VesselsResponse]. *)
Record vessels_response : Type := {
  vessels : list vessel;
  server_time : Z;
  count : Z;
  is_delta : bool
}.

Inductive response : Type :=
| Http200 (body : vessels_response)
| Http400
| Http422
| Http500.

(** The database as the handler meets it: [db_pool] unset, a connection on
    which the query raises, or the rows of [vessels]. *)
Inductive database : Type :=
| NoPool
| Failing
| Serving (rows : list vessel).

(** [s.split(",")]. *)
Fixpoint split_comma (s : string) : list string :=
  match s with
  | EmptyString => [EmptyString]
  | String c s' =>
      if Ascii.eqb c ","%char then EmptyString :: split_comma s'
      else match split_comma s' with
           | [] => [String c EmptyString]
           | h :: t => String c h :: t
           end
  end.

(** The freshness window of the query: [INTERVAL '2 minutes']. *)
Definition two_minutes : Z := 120 * 1000000.

(** [lo <= x <= hi] on floats. *)
Definition within (lo x hi : pyfloat) : bool := fle lo x && fle x hi.

(** The [WHERE] clause. *)
Definition in_bbox (min_lat max_lat min_lon max_lon : pyfloat) (v : vessel)
    : bool :=
  within min_lat (Fin (latitude v)) max_lat
  && within min_lon (Fin (longitude v)) max_lon.

Definition is_fresh (now : Z) (v : vessel) : bool :=
  now - two_minutes <? last_updated v.

Definition after_delta (delta_time : option Z) (v : vessel) : bool :=
  match delta_time with
  | Some t => t <? last_updated v
  | None => true
  end.

Definition selected (min_lat max_lat min_lon max_lon : pyfloat) (now : Z)
    (delta_time : option Z) (v : vessel) : bool :=
  in_bbox min_lat max_lat min_lon max_lon v
  && is_fresh now v
  && after_delta delta_time v.

(** [ORDER BY last_updated DESC], by insertion. SQL leaves the order
    among rows with equal [last_updated] to the database; the order this
    function gives them is one of those, and what is proved of an answer
    does not depend on it. *)
Fixpoint insert_desc (v : vessel) (l : list vessel) : list vessel :=
  match l with
  | [] => [v]
  | w :: rest =>
      if last_updated w <? last_updated v then v :: l
      else w :: insert_desc v rest
  end.

Fixpoint order_desc (l : list vessel) : list vessel :=
  match l with
  | [] => []
  | v :: rest => insert_desc v (order_desc rest)
  end.

(** The statement built at lines 177-200, run on the rows of the table. *)
Definition query (min_lat max_lat min_lon max_lon : pyfloat) (now : Z)
    (delta_time : option Z) (rows : list vessel) : list vessel :=
  order_desc (filter (selected min_lat max_lat min_lon max_lon now delta_time)
                rows).

Section Handler.
(** [float(s)] and [datetime.fromisoformat(s)] of the Python library. *)
Variable py_float : string -> res pyfloat.
Variable fromisoformat : string -> option Z.

(** Lines 143-157: the four bounds, or the [ValueError] that becomes
    status 400. *)
Definition parse_bbox (bbox : string)
    : res (pyfloat * pyfloat * pyfloat * pyfloat) :=
  match split_comma bbox with
  | [a; b; c; d] =>
      min_lon <- py_float a ;;
      min_lat <- py_float b ;;
      max_lon <- py_float c ;;
      max_lat <- py_float d ;;
      if negb (within (of_Z (-180)) min_lon (of_Z 180)
               && within (of_Z (-180)) max_lon (of_Z 180))
      then Raise ValueError
      else if negb (within (of_Z (-90)) min_lat (of_Z 90)
                    && within (of_Z (-90)) max_lat (of_Z 90))
      then Raise ValueError
      else if fle max_lon min_lon || fle max_lat min_lat
      then Raise ValueError
      else Ok (min_lon, min_lat, max_lon, max_lat)
  | _ => Raise ValueError
  end.

(** Lines 162-170: [(delta_time, is_delta)]. *)
Definition parse_delta (last_update_time : option string)
    : option Z * bool :=
  match last_update_time with
  | None => (None, false)
  | Some s =>
      if String.eqb s EmptyString then (None, false)
      else match fromisoformat (replace s "Z" "+00:00") with
           | Some t => (Some t, true)
           | None => (None, false)
           end
  end.

(** [GET /api/vessels]; [db_now] is the [NOW()] of the query and
    [utcnow] the [datetime.utcnow()] of line 228. *)
Definition get_vessels (bbox : string) (zoom : Z)
    (last_update_time : option string)
    (d : database) (db_now utcnow : Z) : response :=
  if negb ((1 <=? zoom) && (zoom <=? 20)) then Http422 else
  match parse_bbox bbox with
  | Raise _ => Http400
  | Ok (min_lon, min_lat, max_lon, max_lat) =>
      let (delta_time, is_delta) := parse_delta last_update_time in
      match d with
      | NoPool => Http500
      | Failing => Http500
      | Serving rows =>
          let vessels :=
            query min_lat max_lat min_lon max_lon db_now delta_time rows in
          Http200 {| vessels := vessels;
                     server_time := utcnow;
                     count := Z.of_nat (List.length vessels);
                     is_delta := is_delta |}
      end
  end.
End Handler.

(** [HealthResponse], and the two ways [GET /health] fails. *)
Inductive health : Type :=
| Healthy (timestamp : Z) (vessels_count : Z)
| Unhealthy503 (timestamp : Z)
| Health500.

(** [GET /health]: without a pool [get_db_connection] raises before the
    [try]; a failing query is answered with status 503; otherwise the
    count of all the rows of [vessels]. *)
Definition health_check (d : database) (utcnow : Z) : health :=
  match d with
  | NoPool => Health500
  | Failing => Unhealthy503 utcnow
  | Serving rows => Healthy utcnow (Z.of_nat (List.length rows))
  end.

End Api.

(* ------------------------------------------------------------------ *)
(** ** Instances of the library functions

    The embedding above is parametric in the functions of the Python
    libraries. The instances below are used to run it on concrete
    inputs. *)

Module Geohash.

Local Open Scope Q_scope.

(** The geohash alphabet. *)
Definition base32 : string := "0123456789bcdefghjkmnpqrstuvwxyz".

(** The cell being bisected and the axis of the next bit (longitude
    first). *)
Record cell : Type := {
  lat_lo : Q; lat_hi : Q;
  lon_lo : Q; lon_hi : Q;
  even : bool
}.

Definition world : cell :=
  {| lat_lo := -90; lat_hi := 90; lon_lo := -180; lon_hi := 180;
     even := true |}.

(** One bisection: the bit, and the half that contains the position. *)
Definition bisect (lat lon : Q) (c : cell) : bool * cell :=
  if even c then
    let mid := (lon_lo c + lon_hi c) / 2 in
    if Qle_bool lon mid
    then (false, {| lat_lo := lat_lo c; lat_hi := lat_hi c;
                    lon_lo := lon_lo c; lon_hi := mid; even := false |})
    else (true, {| lat_lo := lat_lo c; lat_hi := lat_hi c;
                   lon_lo := mid; lon_hi := lon_hi c; even := false |})
  else
    let mid := (lat_lo c + lat_hi c) / 2 in
    if Qle_bool lat mid
    then (false, {| lat_lo := lat_lo c; lat_hi := mid;
                    lon_lo := lon_lo c; lon_hi := lon_hi c; even := true |})
    else (true, {| lat_lo := mid; lat_hi := lat_hi c;
                   lon_lo := lon_lo c; lon_hi := lon_hi c; even := true |}).

(** [n] bisections, the bits gathered most significant first. *)
Fixpoint bits (n : nat) (lat lon : Q) (c : cell) (ch : nat) : nat * cell :=
  match n with
  | O => (ch, c)
  | S n' =>
      let (b, c') := bisect lat lon c in
      bits n' lat lon c' (2 * ch + (if b then 1 else 0))%nat
  end.

Definition symbol (ch : nat) : ascii :=
  match String.get ch base32 with
  | Some a => a
  | None => "0"%char
  end.

Fixpoint chars (precision : nat) (lat lon : Q) (c : cell) : string :=
  match precision with
  | O => EmptyString
  | S p =>
      let (ch, c') := bits 5 lat lon c 0%nat in
      String (symbol ch) (chars p lat lon c')
  end.

(** The geohash of a position: five bisections per character. *)
Definition encode (lat lon : Q) (precision : nat) : string :=
  chars precision lat lon world.

End Geohash.

Module Instances.

Definition digit (a : ascii) : option Z :=
  let n := Z.of_nat (nat_of_ascii a) in
  if (48 <=? n) && (n <=? 57) then Some (n - 48) else None.

(** A non-empty run of decimal digits. *)
Fixpoint digits_from (acc : Z) (s : string) : option Z :=
  match s with
  | EmptyString => Some acc
  | String a s' =>
      match digit a with
      | Some d => digits_from (10 * acc + d) s'
      | None => None
      end
  end.

Definition digits (s : string) : option Z :=
  match s with
  | EmptyString => None
  | _ => digits_from 0 s
  end.

(** Days from 1970-01-01 to a date of the proleptic Gregorian calendar. *)
Definition days_from_civil (y m d : Z) : Z :=
  let y' := if m <=? 2 then y - 1 else y in
  let era := y' / 400 in
  let yoe := y' - era * 400 in
  let doy := (153 * (if 2 <? m then m - 3 else m + 9) + 2) / 5 + d - 1 in
  let doe := yoe * 365 + yoe / 4 - yoe / 100 + doy in
  era * 146097 + doe - 719468.

Definition field (s : string) (pos len : nat) : option Z :=
  digits (substring pos len s).

Definition in_range (lo x hi : Z) : bool := (lo <=? x) && (x <=? hi).

(** A timestamp [YYYY-MM-DD hh:mm:ss] (any separator between date and
    time), alone or followed by [+00:00], as microseconds since the epoch. *)
Definition timestamp (s : string) : option Z :=
  let rest := substring 19 (String.length s - 19) s in
  if negb (String.eqb rest EmptyString || String.eqb rest "+00:00") then None
  else if negb (String.eqb (substring 4 1 s) "-"
                && String.eqb (substring 7 1 s) "-"
                && String.eqb (substring 13 1 s) ":"
                && String.eqb (substring 16 1 s) ":") then None
  else
    match field s 0 4, field s 5 2, field s 8 2,
          field s 11 2, field s 14 2, field s 17 2 with
    | Some y, Some m, Some d, Some hh, Some mm, Some ss =>
        if in_range 1 m 12 && in_range 1 d 31 && in_range 0 hh 23
           && in_range 0 mm 59 && in_range 0 ss 59
        then Some ((((days_from_civil y m d * 24 + hh) * 60 + mm) * 60 + ss)
                   * 1000000)
        else None
    | _, _, _, _, _, _ => None
    end.

(** The same as a [datetime]: offset-aware when the offset is given,
    offset-naive when it is not. *)
Definition parse_datetime (s : string) : option datetime :=
  match timestamp s with
  | Some t =>
      Some {| aware := negb (String.eqb
                               (substring 19 (String.length s - 19) s)
                               EmptyString);
              instant := t |}
  | None => None
  end.

(** A decimal numeral [-ddd] or [-ddd.ddd] as a float. *)
Definition decimal (s : string) : res pyfloat :=
  let (neg, body) :=
    match s with
    | String "-"%char s' => (true, s')
    | _ => (false, s)
    end in
  let (int_part, frac_part) :=
    match index 0 "." body with
    | Some i => (substring 0 i body,
                 Some (substring (S i) (String.length body - S i) body))
    | None => (body, None)
    end in
  match digits int_part, frac_part with
  | Some n, None =>
      Ok (Fin (inject_Z (if neg then - n else n)))
  | Some n, Some f =>
      match digits f with
      | Some k =>
          let scale := inject_Z (10 ^ Z.of_nat (String.length f)) in
          let q := (inject_Z n + inject_Z k / scale)%Q in
          Ok (Fin (Qred (if neg then - q else q)))
      | None => Raise ValueError
      end
  | None, _ => Raise ValueError
  end.

End Instances.

(* ------------------------------------------------------------------ *)
(** ** Concrete messages and states *)

Module Scenario.
Import Ingest.
Local Open Scope string_scope.

(** A message of the feed with the given fields. *)
Definition position_report (mmsi lat lon cog sog time_utc : json) : json :=
  JObj [("MessageType", JStr "PositionReport");
        ("MetaData", JObj [("MMSI", mmsi); ("ShipType", JInt 70);
                           ("time_utc", time_utc)]);
        ("Message",
         JObj [("PositionReport",
                JObj [("Latitude", lat); ("Longitude", lon);
                      ("Cog", cog); ("Sog", sog)])])].

Definition no_stats : stats :=
  {| messages_received := 0; position_reports := 0; vessels_upserted := 0;
     batches_processed := 0; errors := 0 |}.

(** The state in which [process_message_queue] starts, on an empty
    table. *)
Definition start : loop_state :=
  {| batch := [];
     last_batch_time := 0;
     svc := {| st := no_stats; db := {| committed := []; pending := [] |} |} |}.

(** An iteration that receives [m] at time [t] (seconds), the database
    answering as [f]. *)
Definition arrival (m : raw_message) (t : Z) (f : fault) : tick :=
  {| got := Some m;
     utcnow := t * 1000000;
     t_check := inject_Z t;
     t_reset := inject_Z t;
     db_now := t * 1000000;
     db_fault := f;
     db_rollback_raises := false |}.

(** An iteration in which the queue stays empty. *)
Definition timeout (t : Z) (f : fault) : tick :=
  {| got := None;
     utcnow := t * 1000000;
     t_check := inject_Z t;
     t_reset := inject_Z t;
     db_now := t * 1000000;
     db_fault := f;
     db_rollback_raises := false |}.

(** Three reports of vessel 123 within a second: observed at 00:00:10,
    at 00:00:30, and at 00:00:30 again from another position. *)
Definition three_reports : list tick :=
  [ arrival (Parsed (position_report (JInt 123) (JInt 10) (JInt 20)
                       (JInt 90) (JInt 5) (JStr "2024-01-01 00:00:10 UTC")))
      1 NoFault;
    arrival (Parsed (position_report (JInt 123) (JInt 11) (JInt 20)
                       (JInt 90) (JInt 5) (JStr "2024-01-01 00:00:30 UTC")))
      1 NoFault;
    arrival (Parsed (position_report (JInt 123) (JInt 12) (JInt 20)
                       (JInt 90) (JInt 5) (JStr "2024-01-01 00:00:30 UTC")))
      1 NoFault ].

Definition report_123 : raw_message :=
  Parsed (position_report (JInt 123) (JInt 10) (JInt 20) (JInt 90) (JInt 5)
            (JStr "2024-01-01 00:00:10 UTC")).

Definition report_456 : raw_message :=
  Parsed (position_report (JInt 456) (JInt 48) (JInt (-5)) JNull JNull
            (JStr "2024-01-01 00:00:11 UTC")).

(** A report without a usable vessel identifier. *)
Definition report_mmsi_0 : raw_message :=
  Parsed (position_report (JInt 0) (JInt 10) (JInt 20) (JInt 90) (JInt 5)
            (JStr "2024-01-01 00:00:10 UTC")).

(** A report whose course is a string. *)
Definition report_cog_text : json :=
  position_report (JInt 123) (JInt 10) (JInt 20) (JStr "north") (JInt 5)
    (JStr "2024-01-01 00:00:10 UTC").

(** A report without a time, of a vessel whose type is not an integer. *)
Definition report_no_time : json :=
  JObj [("MessageType", JStr "PositionReport");
        ("MetaData", JObj [("MMSI", JInt 123); ("ShipType", JStr "tug")]);
        ("Message",
         JObj [("PositionReport",
                JObj [("Latitude", JInt 10); ("Longitude", JInt 20)])])].

(** A report whose course and speed are out of range. *)
Definition report_cog_400 : json :=
  position_report (JInt 123) (JInt 10) (JInt 20) (JInt 400) (JInt (-1))
    (JStr "2024-01-01 00:00:10 UTC").

(** The accumulator after two reports, of two vessels, nothing flushed. *)
Definition two_held : loop_state :=
  run Instances.parse_datetime Geohash.encode 1000 3 start
    [arrival report_123 1 NoFault; arrival report_456 1 NoFault].

Definition report_123_later : raw_message :=
  Parsed (position_report (JInt 123) (JInt 15) (JInt 21) (JInt 95) (JInt 6)
            (JStr "2024-01-01 00:00:40 UTC")).

(** Two seconds of traffic: reports of two vessels, a message that is not
    JSON, a report without a usable identifier, a JSON list, and a later
    report of the first vessel. *)
Definition mixed_window : list tick :=
  [ arrival report_123 1 NoFault;
    arrival Unparsable 1 NoFault;
    arrival report_456 1 NoFault;
    arrival report_mmsi_0 2 NoFault;
    arrival (Parsed (JArr [])) 2 NoFault;
    arrival report_123_later 2 NoFault ].


(** The same, on a connection that has been lost: the statement fails
    and so does the rollback. *)
Definition lost_connection : tick :=
  {| got := None;
     utcnow := 10 * 1000000;
     t_check := inject_Z 10;
     t_reset := inject_Z 10;
     db_now := 10 * 1000000;
     db_fault := FailAtRow 1;
     db_rollback_raises := true |}.

(** A report of vessel 123 that arrives while the connection is lost. *)
Definition report_123_on_lost_connection : tick :=
  {| got := Some report_123;
     utcnow := 1 * 1000000;
     t_check := inject_Z 1;
     t_reset := inject_Z 1;
     db_now := 1 * 1000000;
     db_fault := FailAtRow 0;
     db_rollback_raises := true |}.

(** A report of vessel 123 without [time_utc], received at 00:00:05 by
    the clock of the decoder (1 January 2024), and a report of the same
    vessel observed at 00:00:30 according to its offset-aware
    [time_utc]. *)
Definition report_123_untimed : tick :=
  {| got := Some (Parsed
                    (JObj [("MessageType", JStr "PositionReport");
                           ("MetaData", JObj [("MMSI", JInt 123)]);
                           ("Message",
                            JObj [("PositionReport",
                                   JObj [("Latitude", JInt 10);
                                         ("Longitude", JInt 20)])])]));
     utcnow := 1704067205000000;
     t_check := 1;
     t_reset := 1;
     db_now := 1704067205000000;
     db_fault := NoFault;
     db_rollback_raises := false |}.

Definition report_123_aware : tick :=
  arrival (Parsed (position_report (JInt 123) (JInt 11) (JInt 20) (JInt 90)
                     (JInt 5) (JStr "2024-01-01 00:00:30+00:00 UTC")))
    1 NoFault.

Definition blank : vessel_data :=
  {| mmsi := JNull; latitude := JNull; longitude := JNull; course := JNull;
     speed := JNull; ship_type := JNull; geohash := ""; geohash_5 := "";
     last_updated := naive 0 |}.

(** The record held for vessel 123. *)
Definition held_123 : vessel_data :=
  match dict_get (JInt 123) (batch two_held) with
  | Some r => r
  | None => blank
  end.

(** The record held for vessel 456. *)
Definition held_456 : vessel_data :=
  match dict_get (JInt 456) (batch two_held) with
  | Some r => r
  | None => blank
  end.

(** A service whose table already has a row for vessel 123, written at
    00:00:05. *)
Definition stored_123 : service :=
  fst (batch_upsert 5000000 NoFault false (svc start) [held_123]).

End Scenario.

Module ApiScenario.
Import Api.
Local Open Scope string_scope.

Definition at_time (hh mm ss : Z) : Z :=
  ((Instances.days_from_civil 2024 1 1 * 24 + hh) * 60 + mm) * 60 * 1000000
  + ss * 1000000.

Definition vessel_at (id : Z) (lat lon : Q) (seen : Z) : vessel :=
  {| mmsi := id; latitude := lat; longitude := lon;
     course := None; speed := None; ship_type := Some 70;
     last_updated := seen |}.

(** Four vessels: two in the North Sea seen within the last two minutes
    of 12:00:00, one there seen earlier, one off Brazil. *)
Definition rows : list vessel :=
  [ vessel_at 111 55 5 (at_time 11 59 10);
    vessel_at 222 56 6 (at_time 11 59 50);
    vessel_at 333 55 5 (at_time 11 50 0);
    vessel_at 444 (-20) (-35) (at_time 11 59 55) ].

Definition north_sea : string := "0,50,10,60".

End ApiScenario.


(* ------------------------------------------------------------------ *)
(** ** Properties of the Python values *)

Module PyFacts.

Lemma feq_sym (a b : pyfloat) : feq a b = feq b a.
Proof.
  destruct a, b; simpl; trivial.
  destruct (Qeq_bool q q0) eqn:E, (Qeq_bool q0 q) eqn:E'; trivial.
  - apply Qeq_bool_sym in E. congruence.
  - apply Qeq_bool_sym in E'. congruence.
Qed.

Lemma feq_trans (a b c : pyfloat) :
  feq a b = true -> feq b c = true -> feq a c = true.
Proof.
  destruct a, b, c; simpl; try discriminate; trivial.
  apply Qeq_bool_trans.
Qed.

Lemma key_eqb_sym (a b : json) : key_eqb a b = key_eqb b a.
Proof.
  unfold key_eqb. destruct (num a), (num b); trivial. apply feq_sym.
Qed.

Lemma key_eqb_trans (a b c : json) :
  key_eqb a b = true -> key_eqb b c = true -> key_eqb a c = true.
Proof.
  unfold key_eqb.
  destruct (num a), (num b), (num c); try discriminate. apply feq_trans.
Qed.

(** A key equal to another one is equal to itself (it is a number, and
    not NaN). *)
Lemma key_eqb_refl_l (a b : json) : key_eqb a b = true -> key_eqb a a = true.
Proof.
  intros H. apply key_eqb_trans with b; trivial. now rewrite key_eqb_sym.
Qed.

(** Equal keys are equal to the same keys. *)
Lemma key_eqb_congr (a b c : json) :
  key_eqb a b = true -> key_eqb c a = key_eqb c b.
Proof.
  intros H.
  destruct (key_eqb c a) eqn:E, (key_eqb c b) eqn:E'; trivial.
  - rewrite (key_eqb_trans _ _ _ E H) in E'. discriminate.
  - rewrite key_eqb_sym in H. rewrite (key_eqb_trans _ _ _ E' H) in E.
    discriminate.
Qed.

Lemma fle_Fin (p q : Q) : fle (Fin p) (Fin q) = true <-> (p <= q)%Q.
Proof. simpl. apply Qle_bool_iff. Qed.

Lemma flt_Fin (p q : Q) : flt (Fin p) (Fin q) = true <-> (p < q)%Q.
Proof.
  unfold flt. simpl. rewrite andb_true_iff, negb_true_iff, Qle_bool_iff.
  split.
  - intros [Hle Hne]. apply Qle_lteq in Hle. destruct Hle as [Hlt | Heq].
    + exact Hlt.
    + apply Qeq_bool_iff in Heq. congruence.
  - intros Hlt. split.
    + now apply Qlt_le_weak.
    + destruct (Qeq_bool p q) eqn:E; trivial.
      apply Qeq_bool_iff in E. rewrite E in Hlt.
      now apply Qlt_irrefl in Hlt.
Qed.

End PyFacts.

(* ------------------------------------------------------------------ *)
(** ** Properties of the geohash instance *)

Module GeohashFacts.
Import Geohash.

Lemma chars_length lat lon : forall precision c,
  String.length (chars precision lat lon c) = precision.
Proof.
  induction precision as [| p IH]; intros c; trivial.
  cbn [chars]. destruct (bits 5 lat lon c 0) as [ch c'].
  cbn [String.length]. now rewrite IH.
Qed.

Lemma encode_length lat lon precision :
  String.length (encode lat lon precision) = precision.
Proof. apply chars_length. Qed.

(** The geohash of 57.64911 N, 10.40744 E. *)
Example encode_jutland :
  encode (5764911 # 100000) (1040744 # 100000) 7 = "u4pruyd"%string.
Proof. vm_compute. reflexivity. Qed.

End GeohashFacts.


(* ------------------------------------------------------------------ *)
(** ** Properties of the ingest service *)

Module IngestFacts.
Import Ingest PyFacts.

(** *** Dictionaries *)
Section DictFacts.
Context {V : Type}.
Implicit Types (d : dict V) (k : json) (v : V).

Lemma dict_get_equiv k1 k2 d :
  key_eqb k1 k2 = true -> dict_get k1 d = dict_get k2 d.
Proof.
  intros H. induction d as [| [k' v'] rest IH]; simpl; trivial.
  rewrite (key_eqb_congr _ _ k' H), IH. reflexivity.
Qed.

Lemma dict_get_set_same k v d :
  key_eqb k k = true -> dict_get k (dict_set k v d) = Some v.
Proof.
  intros H. induction d as [| [k' v'] rest IH]; simpl.
  - now rewrite H.
  - destruct (key_eqb k' k) eqn:E; simpl; rewrite E; trivial.
Qed.

Lemma dict_get_set_other k k' v d :
  key_eqb k k' = false -> dict_get k' (dict_set k v d) = dict_get k' d.
Proof.
  intros H. induction d as [| [k0 v0] rest IH]; simpl.
  - now rewrite H.
  - destruct (key_eqb k0 k) eqn:E; simpl.
    + assert (key_eqb k0 k' = false) as ->; trivial.
      destruct (key_eqb k0 k') eqn:E'; trivial.
      rewrite key_eqb_sym in E.
      rewrite (key_eqb_trans _ _ _ E E') in H. discriminate.
    + now rewrite IH.
Qed.

Lemma dict_get_set k k' v d :
  key_eqb k k = true ->
  dict_get k' (dict_set k v d)
  = if key_eqb k k' then Some v else dict_get k' d.
Proof.
  intros Hk. destruct (key_eqb k k') eqn:E.
  - rewrite <- (dict_get_equiv k k') by exact E.
    now apply dict_get_set_same.
  - now apply dict_get_set_other.
Qed.
End DictFacts.

(** *** The accumulator keeps the newest record of a vessel *)

(** When the timestamps can be ordered, lines 164-169 merge the record
    into the batch. *)
Lemma accumulate_comparable b v :
  comparable b v -> accumulate b v = Ok (merge b v).
Proof.
  unfold comparable, accumulate, merge, dt_gt.
  destruct (dict_get (mmsi v) b) as [held |]; trivial.
  intros ->. now rewrite eqb_reflx.
Qed.

(** When they cannot, line 167 raises. *)
Lemma accumulate_incomparable b v held :
  dict_get (mmsi v) b = Some held ->
  aware (last_updated v) <> aware (last_updated held) ->
  accumulate b v = Raise TypeError.
Proof.
  unfold accumulate, dt_gt. intros -> H.
  destruct (Bool.eqb _ _) eqn:E; trivial.
  apply eqb_prop in E. contradiction.
Qed.

(** Whatever it returns, it returns the merged batch. *)
Lemma accumulate_ok b v b' : accumulate b v = Ok b' -> b' = merge b v.
Proof.
  unfold accumulate, merge, dt_gt.
  destruct (dict_get (mmsi v) b) as [held |]; [| congruence].
  destruct (Bool.eqb _ _); cbn [bind]; congruence.
Qed.

(** Once the batch holds [h] for the vessel, the records that follow
    leave [h] in place unless one of them is strictly newer; then the
    first of the newest ones is held. *)
Lemma accumulate_from_held k : forall recs b h,
  Forall (fun r => key_eqb (mmsi r) k = true) recs ->
  dict_get k b = Some h ->
  exists r,
    dict_get k (fold_left merge recs b) = Some r /\
    ((r = h /\ Forall (fun x => instant (last_updated x)
                                <= instant (last_updated h)) recs)
     \/
     (exists i,
         nth_error recs i = Some r /\
         instant (last_updated h) < instant (last_updated r) /\
         Forall (fun x => instant (last_updated x)
                          <= instant (last_updated r)) recs /\
         forall j x, (j < i)%nat -> nth_error recs j = Some x ->
                     instant (last_updated x) < instant (last_updated r))).
Proof.
  induction recs as [| x recs IH]; intros b h Hk Hget; simpl.
  - exists h. split; trivial. left. split; trivial.
  - inversion Hk as [| ? ? Hx Hrest]; subst.
    assert (Hgetx : dict_get (mmsi x) b = Some h)
      by now rewrite (dict_get_equiv _ _ b Hx).
    assert (Hxx : key_eqb (mmsi x) (mmsi x) = true)
      by now apply key_eqb_refl_l with k.
    unfold merge at 2. rewrite Hgetx.
    destruct (instant (last_updated h) <? instant (last_updated x)) eqn:Hlt.
    + apply Z.ltb_lt in Hlt.
      assert (Hget' : dict_get k (dict_set (mmsi x) x b) = Some x).
      { rewrite dict_get_set by exact Hxx. now rewrite Hx. }
      destruct (IH _ x Hrest Hget') as (r & Hr & Hcase).
      exists r. split; trivial. right.
      destruct Hcase as [[-> Hall] | (i & Hi & Hxr & Hall & Hfirst)].
      * exists 0%nat. repeat split; trivial.
        -- constructor; [lia | exact Hall].
        -- intros j y Hj. lia.
      * exists (S i). repeat split; trivial.
        -- lia.
        -- constructor; [lia | exact Hall].
        -- intros [| j] y Hj Hy; simpl in Hy.
           ++ injection Hy as <-. exact Hxr.
           ++ apply (Hfirst j); [lia | exact Hy].
    + apply Z.ltb_ge in Hlt.
      destruct (IH _ h Hrest Hget) as (r & Hr & Hcase).
      exists r. split; trivial.
      destruct Hcase as [[-> Hall] | (i & Hi & Hhr & Hall & Hfirst)].
      * left. split; trivial. constructor; trivial.
      * right. exists (S i). repeat split; trivial.
        -- constructor; [lia | exact Hall].
        -- intros [| j] y Hj Hy; simpl in Hy.
           ++ injection Hy as <-. lia.
           ++ apply (Hfirst j); [lia | exact Hy].
Qed.

Lemma accumulate_first_newest k recs b :
  recs <> [] ->
  Forall (fun r => key_eqb (mmsi r) k = true) recs ->
  dict_get k b = None ->
  exists r, dict_get k (fold_left merge recs b) = Some r
            /\ first_newest recs r.
Proof.
  intros Hne Hk Hnew. destruct recs as [| x recs]; [congruence |].
  inversion Hk as [| ? ? Hx Hrest]; subst. simpl.
  assert (Hgetx : dict_get (mmsi x) b = None)
    by now rewrite (dict_get_equiv _ _ b Hx).
  assert (Hxx : key_eqb (mmsi x) (mmsi x) = true)
    by now apply key_eqb_refl_l with k.
  unfold merge at 2. rewrite Hgetx.
  assert (Hget' : dict_get k (dict_set (mmsi x) x b) = Some x).
  { rewrite dict_get_set by exact Hxx. now rewrite Hx. }
  destruct (accumulate_from_held k recs _ x Hrest Hget') as (r & Hr & Hcase).
  exists r. split; trivial.
  destruct Hcase as [[-> Hall] | (i & Hi & Hxr & Hall & Hfirst)].
  - exists 0%nat. repeat split; trivial.
    + intros y [<- | Hy]; [lia |].
      rewrite Forall_forall in Hall. now apply Hall.
    + intros j y Hj. lia.
  - exists (S i). repeat split; trivial.
    + intros y [<- | Hy]; [lia |].
      rewrite Forall_forall in Hall. now apply Hall.
    + intros [| j] y Hj Hy; simpl in Hy.
      * injection Hy as <-. exact Hxr.
      * apply (Hfirst j); [lia | exact Hy].
Qed.

(** *** The sink writer *)
Section Sink.
Variable now : Z.

Lemma execute_values_all (f : fault) : forall values i t,
  (forall j, (j < List.length values)%nat -> fails_at f (i + j) = false) ->
  execute_values now f i values t
  = (fold_left (upsert_row now) values t, Ok tt).
Proof.
  induction values as [| v values IH]; intros i t H; simpl; trivial.
  assert (fails_at f i = false) as ->.
  { rewrite <- (Nat.add_0_r i). apply H. simpl. lia. }
  apply IH. intros j Hj. replace (S i + j)%nat with (i + S j)%nat by lia.
  apply H. simpl. lia.
Qed.

Lemma execute_values_stops (k : nat) : forall values i t,
  (i <= k < i + List.length values)%nat ->
  snd (execute_values now (FailAtRow k) i values t) = Raise DatabaseError.
Proof.
  induction values as [| v values IH]; intros i t H; simpl in *; [lia |].
  destruct (Nat.eqb k i) eqn:E; trivial.
  apply Nat.eqb_neq in E. apply IH. lia.
Qed.

(** A transaction that goes through: every tuple is applied and the
    result is committed. *)
Lemma batch_upsert_commits f rb s batch :
  batch <> [] ->
  tx_fails f batch = false ->
  batch_upsert now f rb s batch
  = ({| st := count_batch (Z.of_nat (List.length batch)) (st s);
        db := {| committed :=
                   fold_left (upsert_row now) batch (pending (db s));
                 pending :=
                   fold_left (upsert_row now) batch (pending (db s)) |}
     |}, Ok tt).
Proof.
  intros Hne Hok. unfold batch_upsert.
  destruct batch as [| v batch]; [congruence |].
  rewrite execute_values_all.
  - destruct f; simpl in *; trivial; discriminate.
  - intros j Hj. destruct f; simpl in *; trivial.
    apply Nat.eqb_neq. apply Nat.leb_gt in Hok. lia.
Qed.

(** The transaction fails somewhere. *)
Lemma tx_fails_raises f s batch :
  tx_fails f batch = true ->
  exists t,
    batch_upsert now f false s batch
    = ({| st := count_error (st s);
          db := {| committed := committed (db s);
                   pending := committed (db s) |} |}, Ok tt)
    /\ batch_upsert now f true s batch
       = ({| st := st s;
             db := {| committed := committed (db s); pending := t |} |},
          Raise DatabaseError).
Proof.
  intros Hfail. unfold batch_upsert.
  destruct batch as [| v batch]; [discriminate |].
  destruct f as [| k |]; [discriminate | |].
  - pose proof (execute_values_stops k (v :: batch) 0 (pending (db s))) as H.
    destruct (execute_values now (FailAtRow k) 0 (v :: batch) (pending (db s)))
      as [t r].
    simpl in H. rewrite H.
    + exists t. split; reflexivity.
    + simpl in Hfail. apply Nat.leb_le in Hfail. lia.
  - rewrite execute_values_all by trivial. eexists. split; reflexivity.
Qed.

(** A transaction that fails and is rolled back: the error is counted and
    the connection shows what was committed before. *)
Lemma batch_upsert_rolls_back f s batch :
  tx_fails f batch = true ->
  batch_upsert now f false s batch
  = ({| st := count_error (st s);
        db := {| committed := committed (db s);
                 pending := committed (db s) |} |}, Ok tt).
Proof.
  intros Hfail. now destruct (tx_fails_raises f s batch Hfail) as (t & H & _).
Qed.

(** A transaction that fails, the rollback raising too: the exception
    leaves [batch_upsert] before the error is counted, and nothing has
    been committed. *)
Lemma batch_upsert_raises f s batch :
  tx_fails f batch = true ->
  snd (batch_upsert now f true s batch) = Raise DatabaseError
  /\ st (fst (batch_upsert now f true s batch)) = st s
  /\ committed (db (fst (batch_upsert now f true s batch)))
     = committed (db s).
Proof.
  intros Hfail. destruct (tx_fails_raises f s batch Hfail) as (t & _ & H).
  rewrite H. auto.
Qed.

(** [batch_upsert] raises only when the transaction fails and the
    rollback raises. *)
Lemma batch_upsert_returns f rb s batch :
  tx_fails f batch = false \/ rb = false ->
  snd (batch_upsert now f rb s batch) = Ok tt.
Proof.
  intros H. destruct batch as [| v batch]; trivial.
  destruct (tx_fails f (v :: batch)) eqn:E.
  - destruct H as [H | ->]; [discriminate |].
    now rewrite batch_upsert_rolls_back.
  - now rewrite batch_upsert_commits.
Qed.

(** What is committed changes only by a transaction that goes
    through. *)
Lemma batch_upsert_committed f rb s batch :
  committed (db (fst (batch_upsert now f rb s batch)))
  = if tx_fails f batch || match batch with [] => true | _ => false end
    then committed (db s)
    else fold_left (upsert_row now) batch (pending (db s)).
Proof.
  destruct batch as [| v batch]; trivial.
  destruct (tx_fails f (v :: batch)) eqn:E; cbn [orb].
  - destruct rb.
    + now apply batch_upsert_raises.
    + now rewrite batch_upsert_rolls_back.
  - now rewrite batch_upsert_commits.
Qed.


(** The error counter after [batch_upsert]: a failure is counted when
    the rollback has gone through. *)
Lemma batch_upsert_errors f rb s batch :
  errors (st (fst (batch_upsert now f rb s batch)))
  = errors (st s) + (if tx_fails f batch && negb rb then 1 else 0).
Proof.
  destruct batch as [| v batch]; [simpl; lia |].
  destruct (tx_fails f (v :: batch)) eqn:E; cbn [andb].
  - destruct rb; cbn [negb].
    + destruct (batch_upsert_raises f s _ E) as (_ & -> & _). lia.
    + now rewrite batch_upsert_rolls_back.
  - rewrite batch_upsert_commits by (trivial; discriminate). simpl. lia.
Qed.

(** What the table holds for a key after one tuple. *)
Lemma upsert_row_get t v k :
  dict_get k (upsert_row now t v)
  = if key_eqb (mmsi v) k
    then Some (match dict_get (mmsi v) t with
               | None => inserted_row now v
               | Some old => updated_row now old v
               end)
    else dict_get k t.
Proof.
  unfold upsert_row. destruct (key_eqb (mmsi v) k) eqn:E.
  - pose proof (key_eqb_refl_l _ _ E) as Hvv.
    destruct (dict_get (mmsi v) t); rewrite dict_get_set, E; trivial.
  - destruct (dict_get (mmsi v) t); now rewrite dict_get_set_other.
Qed.

(** Both ways of writing a row stamp it with the server time. *)
Lemma written_row_received_at t v :
  r_received_at (match dict_get (mmsi v) t with
                 | None => inserted_row now v
                 | Some old => updated_row now old v
                 end) = now.
Proof. destruct (dict_get (mmsi v) t); reflexivity. Qed.

Lemma stamped_stays_stamped k : forall values t,
  (exists r, dict_get k t = Some r /\ r_received_at r = now) ->
  exists r, dict_get k (fold_left (upsert_row now) values t) = Some r
            /\ r_received_at r = now.
Proof.
  induction values as [| v values IH]; intros t H; simpl; trivial.
  apply IH. rewrite upsert_row_get.
  destruct (key_eqb (mmsi v) k); trivial.
  eexists. split; [reflexivity | apply written_row_received_at].
Qed.

Lemma written_rows_stamped : forall values t v,
  In v values ->
  key_eqb (mmsi v) (mmsi v) = true ->
  exists r, dict_get (mmsi v) (fold_left (upsert_row now) values t) = Some r
            /\ r_received_at r = now.
Proof.
  induction values as [| w values IH]; intros t v Hin Hkey; [easy |].
  simpl. destruct Hin as [-> | Hin].
  - apply stamped_stays_stamped. rewrite upsert_row_get, Hkey.
    eexists. split; [reflexivity | apply written_row_received_at].
  - now apply IH.
Qed.

(** C4. After a batch has been written, the row of every vessel of the
    batch carries the server time of the write as [received_at], whether
    the row was inserted by this write or already existed and was
    overwritten. *)
Theorem received_at_is_write_time (f : fault) (rollback_raises : bool)
    (s : service) (batch : list vessel_data) (v : vessel_data) :
  tx_fails f batch = false ->
  In v batch ->
  key_eqb (mmsi v) (mmsi v) = true ->
  exists r,
    dict_get (mmsi v)
      (committed (db (fst (batch_upsert now f rollback_raises s batch))))
    = Some r
    /\ r_received_at r = now.
Proof.
  intros Hok Hin Hkey.
  rewrite batch_upsert_commits; trivial.
  - simpl. now apply written_rows_stamped.
  - intros ->. contradiction.
Qed.
End Sink.

Lemma received_at_is_write_time_witness :
  exists r,
    dict_get (mmsi Scenario.held_123)
      (committed (db (fst (batch_upsert 9000000 NoFault false
                             Scenario.stored_123
                             (dict_values (batch Scenario.two_held))))))
    = Some r
    /\ r_received_at r = 9000000.
Proof.
  apply (received_at_is_write_time 9000000 NoFault false Scenario.stored_123
           (dict_values (batch Scenario.two_held)) Scenario.held_123).
  - vm_compute. reflexivity.
  - vm_compute. left. reflexivity.
  - vm_compute. reflexivity.
Defined.

(** *** A failed write *)

Lemma batch_upsert_db_congr now f rb s1 s2 batch :
  db s1 = db s2 ->
  db (fst (batch_upsert now f rb s1 batch))
  = db (fst (batch_upsert now f rb s2 batch)).
Proof.
  intros H. unfold batch_upsert. destruct batch as [| v batch]; trivial.
  rewrite H.
  destruct (execute_values now f 0 (v :: batch) (pending (db s2))) as [t r].
  destruct r as [[] | x]; cbn [bind].
  - destruct (commit f _); [reflexivity |].
    destruct (rollback rb _); reflexivity.
  - destruct (rollback rb _); reflexivity.
Qed.



(** C5 fails on the code. Two records are held and due; the connection
    has been lost, so the statement fails and the [rollback()] of the
    handler raises too. The exception leaves [batch_upsert] and ends in
    the handler of the loop: one error is counted and nothing is visible
    in the table, but the two assignments after the call are skipped, so
    the batch is still held, and the next iteration hands the same
    records to [batch_upsert] again. *)
Lemma lost_connection_keeps_the_batch :
  tx_fails (db_fault Scenario.lost_connection)
    (dict_values (batch Scenario.two_held)) = true
  /\ batch (iteration Instances.parse_datetime Geohash.encode 1000 3
              Scenario.two_held Scenario.lost_connection)
     = batch Scenario.two_held
  /\ batch Scenario.two_held <> []
  /\ last_batch_time (iteration Instances.parse_datetime Geohash.encode
                        1000 3 Scenario.two_held Scenario.lost_connection)
     = last_batch_time Scenario.two_held
  /\ errors (st (svc (iteration Instances.parse_datetime Geohash.encode
                        1000 3 Scenario.two_held Scenario.lost_connection)))
     = errors (st (svc Scenario.two_held)) + 1
  /\ committed (db (svc (iteration Instances.parse_datetime Geohash.encode
                           1000 3 Scenario.two_held
                           Scenario.lost_connection))) = []
  /\ flushed Instances.parse_datetime Geohash.encode 1000 3
       (iteration Instances.parse_datetime Geohash.encode 1000 3
          Scenario.two_held Scenario.lost_connection)
       (Scenario.timeout 11 NoFault) = true
  /\ dict_values
       (batch (fst (receive Instances.parse_datetime Geohash.encode 1000 3
                      (iteration Instances.parse_datetime Geohash.encode
                         1000 3 Scenario.two_held Scenario.lost_connection)
                      (Scenario.timeout 11 NoFault))))
     = dict_values (batch Scenario.two_held).
Proof.
  repeat split; vm_compute; trivial; discriminate.
Qed.

(** C1 fails on the code. A report of vessel 123 without [time_utc] is
    stamped with the offset-naive clock of the decoder (00:00:05); a
    second report of the vessel, observed at 00:00:30 according to its
    offset-aware [time_utc], arrives in the same batch window. Both are
    accepted by the decoder and the second is the newer; the comparison
    of line 167 raises [TypeError], an error is counted, and the batch
    goes on holding the older record. *)
Lemma incomparable_timestamps_keep_the_older_record :
  exists r1 r2,
    accepted Instances.parse_datetime Geohash.encode
      Scenario.report_123_untimed = Some r1
    /\ accepted Instances.parse_datetime Geohash.encode
         Scenario.report_123_aware = Some r2
    /\ key_eqb (mmsi r1) (mmsi r2) = true
    /\ instant (last_updated r1) < instant (last_updated r2)
    /\ one_window Instances.parse_datetime Geohash.encode 1000 3
         Scenario.start
         [Scenario.report_123_untimed; Scenario.report_123_aware] = true
    /\ dict_get (JInt 123)
         (batch (run Instances.parse_datetime Geohash.encode 1000 3
                   Scenario.start
                   [Scenario.report_123_untimed; Scenario.report_123_aware]))
       = Some r1
    /\ errors (st (svc (run Instances.parse_datetime Geohash.encode 1000 3
                          Scenario.start
                          [Scenario.report_123_untimed;
                           Scenario.report_123_aware]))) = 1.
Proof.
  eexists. eexists.
  split; [vm_compute; reflexivity |].
  split; [vm_compute; reflexivity |].
  repeat split; vm_compute; reflexivity.
Qed.

(** *** The iterations of the accumulator loop *)
Section Loop.
Variable date_parse : string -> option datetime.
Variable pgh_encode : Q -> Q -> nat -> string.
Variable batch_size : Z.
Variable batch_interval : Z.

Local Abbreviation iteration :=
  (iteration date_parse pgh_encode batch_size batch_interval).
Local Abbreviation receive :=
  (receive date_parse pgh_encode batch_size batch_interval).
Local Abbreviation flushed :=
  (flushed date_parse pgh_encode batch_size batch_interval).
Local Abbreviation flush_trigger := (flush_trigger batch_size batch_interval).
Local Abbreviation validator_rejects :=
  (validator_rejects date_parse pgh_encode).

Lemma receive_unparsable s e :
  got e = Some Unparsable -> receive s e = (with_stats count_error s, None).
Proof. intros H. unfold Ingest.receive. now rewrite H. Qed.

Lemma receive_rejected s e :
  validator_rejects e = true ->
  receive s e
  = (with_stats count_position_report s,
     Some (flush_trigger (with_stats count_position_report s) e)).
Proof.
  unfold Ingest.validator_rejects, Ingest.receive.
  destruct (got e) as [[| message] |]; try discriminate.
  intros H. apply andb_true_iff in H as [Htype Hnone]. simpl.
  unfold handle_message, lookup in *.
  destruct (get message "MessageType" JNull) as [t |]; simpl in *;
    try discriminate.
  rewrite Htype.
  destruct (extract_vessel_data _ _ _ _); [discriminate | reflexivity].
Qed.

Lemma flush_in_loop_position_reports s e :
  position_reports (st (svc (flush_in_loop s e)))
  = position_reports (st (svc s)).
Proof.
  unfold flush_in_loop, flush, batch_upsert.
  destruct (dict_values _) as [| v l]; trivial.
  destruct (execute_values _ _ _ _ _) as [t r].
  destruct (_ <- r ;; commit _ _); [reflexivity |].
  destruct (rollback _ _); reflexivity.
Qed.

(** The error counter after a flush in the loop: a failed write is
    counted once, by [batch_upsert] or by the handler of the loop. *)
Lemma errors_flush s e :
  errors (st (svc (flush_in_loop s e)))
  = errors (st (svc s))
    + (if tx_fails (db_fault e) (dict_values (batch s)) then 1 else 0).
Proof.
  unfold flush_in_loop, flush.
  pose proof (batch_upsert_errors (db_now e) (db_fault e)
                (db_rollback_raises e) (svc s) (dict_values (batch s))) as He.
  destruct (tx_fails (db_fault e) (dict_values (batch s))) eqn:Et.
  - destruct (db_rollback_raises e).
    + destruct (batch_upsert_raises (db_now e) (db_fault e) (svc s) _ Et)
        as (Hr & Hs & _).
      destruct (batch_upsert _ _ true _ _) as [sv r]. simpl in *.
      subst r. simpl. now rewrite Hs.
    + rewrite batch_upsert_rolls_back by exact Et. reflexivity.
  - pose proof (batch_upsert_returns (db_now e) (db_fault e)
                  (db_rollback_raises e) (svc s) _ (or_introl Et)) as Hr.
    destruct (batch_upsert _ _ _ _ _) as [sv r]. simpl in *.
    subst r. simpl. exact He.
Qed.

Lemma receive_not_object s e message :
  got e = Some (Parsed message) ->
  is_object message = false ->
  receive s e = (with_stats count_error s, None).
Proof.
  intros H Hobj. unfold Ingest.receive. rewrite H. simpl.
  unfold handle_message. destruct message; try discriminate; reflexivity.
Qed.

(** C2, as the code has it. A message that is not JSON, or is JSON but
    not an object, is dropped and counted as an error. A position report
    that the decoder turns away is dropped too (nothing enters the batch,
    the table is not touched, the message is not seen again), but it is
    not counted as an error: the error counter changes in that iteration
    only if the iteration flushes and the write fails. It is counted as a
    position report. *)
Theorem rejection_counting (s : loop_state) (e : tick) :
  (got e = Some Unparsable ->
     errors (st (svc (iteration s e))) = errors (st (svc s)) + 1
     /\ batch (iteration s e) = batch s
     /\ db (svc (iteration s e)) = db (svc s))
  /\
  (forall message,
     got e = Some (Parsed message) ->
     is_object message = false ->
     errors (st (svc (iteration s e))) = errors (st (svc s)) + 1
     /\ batch (iteration s e) = batch s
     /\ db (svc (iteration s e)) = db (svc s))
  /\
  (validator_rejects e = true ->
     errors (st (svc (fst (receive s e)))) = errors (st (svc s))
     /\ batch (fst (receive s e)) = batch s
     /\ db (svc (fst (receive s e))) = db (svc s)
     /\ errors (st (svc (iteration s e)))
        = errors (st (svc s))
          + (if flushed s e && tx_fails (db_fault e) (dict_values (batch s))
             then 1 else 0)
     /\ position_reports (st (svc (iteration s e)))
        = position_reports (st (svc s)) + 1).
Proof.
  split; [| split].
  - intros H. unfold Ingest.iteration.
    rewrite (receive_unparsable s e H). simpl. auto.
  - intros message H Hobj. unfold Ingest.iteration.
    rewrite (receive_not_object s e message H Hobj). simpl. auto.
  - intros H. unfold Ingest.iteration, Ingest.flushed.
    rewrite (receive_rejected s e H). simpl. repeat split.
    + destruct (flush_trigger _ e).
      * rewrite errors_flush. reflexivity.
      * simpl. lia.
    + destruct (flush_trigger _ e); trivial.
      now rewrite flush_in_loop_position_reports.
Qed.


(** The flush test is evaluated in an iteration that finds the queue
    empty or gets through its message; there the batch is flushed exactly
    when it has reached the threshold or is non-empty and due. *)
Lemma flushed_iff_trigger s e :
  snd (receive s e) <> None ->
  dict_len (batch s) < batch_size ->
  flushed s e = flush_trigger (fst (receive s e)) e.
Proof.
  unfold Ingest.flushed, Ingest.receive. intros Htest Hsize.
  destruct (got e) as [message_raw |]; simpl in *.
  - destruct (json_loads message_raw) as [message |]; simpl in *;
      [| congruence].
    destruct (handle_message _ _ _ _ _) as [s1 [[] | x]]; simpl in *;
      [| congruence].
    now destruct (Ingest.flush_trigger _ _ _ _).
  - unfold Ingest.flush_trigger.
    apply Z.leb_gt in Hsize. rewrite Hsize. simpl.
    now destruct (time_trigger _ _ _).
Qed.

(** A flushing iteration hands the values of the batch to
    [batch_upsert]. *)
Lemma iteration_flushed s e :
  flushed s e = true ->
  iteration s e = flush_in_loop (fst (receive s e)) e.
Proof.
  unfold Ingest.iteration, Ingest.flushed.
  destruct (receive s e) as [s1 [[|] |]]; simpl; congruence.
Qed.

Lemma iteration_not_flushed s e :
  flushed s e = false ->
  iteration s e = fst (receive s e).
Proof.
  unfold Ingest.iteration, Ingest.flushed.
  destruct (receive s e) as [s1 [[|] |]]; simpl; congruence.
Qed.

(** A flush whose [batch_upsert] returns empties the batch and restarts
    the interval; one whose [batch_upsert] raises leaves both. *)
Lemma flush_in_loop_returns s e :
  tx_fails (db_fault e) (dict_values (batch s)) = false
  \/ db_rollback_raises e = false ->
  batch (flush_in_loop s e) = []
  /\ last_batch_time (flush_in_loop s e) = t_reset e.
Proof.
  intros H. unfold flush_in_loop, flush.
  pose proof (batch_upsert_returns (db_now e) (db_fault e)
                (db_rollback_raises e) (svc s) (dict_values (batch s)) H)
    as Hr.
  destruct (batch_upsert _ _ _ _ _) as [sv r]. simpl in Hr. subst r.
  split; reflexivity.
Qed.

Lemma flush_in_loop_raises s e :
  tx_fails (db_fault e) (dict_values (batch s)) = true ->
  db_rollback_raises e = true ->
  batch (flush_in_loop s e) = batch s
  /\ last_batch_time (flush_in_loop s e) = last_batch_time s
  /\ committed (db (svc (flush_in_loop s e))) = committed (db (svc s)).
Proof.
  intros Hf Hrb. unfold flush_in_loop, flush. rewrite Hrb.
  destruct (batch_upsert_raises (db_now e) (db_fault e) (svc s) _ Hf)
    as (Hr & _ & Hc).
  destruct (batch_upsert _ _ true _ _) as [sv r]. simpl in *. subst r.
  simpl. repeat split; trivial.
Qed.

(** What [handle_message] leaves in the batch is the batch or one
    accumulation into it. *)
Lemma handle_message_batch s e message :
  batch (fst (handle_message date_parse pgh_encode s e message)) = batch s
  \/ exists vessel b,
       accumulate (batch s) vessel = Ok b
       /\ batch (fst (handle_message date_parse pgh_encode s e message)) = b.
Proof.
  unfold handle_message.
  destruct (get message "MessageType" JNull) as [t | x]; simpl; auto.
  destruct (eq_str t "PositionReport"); simpl; auto.
  destruct (extract_vessel_data _ _ _ _) as [vessel |]; simpl; auto.
  destruct (accumulate (batch s) vessel) as [b | x] eqn:E; simpl; auto.
  right. exists vessel, b. auto.
Qed.

Lemma handle_message_raises s e message x :
  snd (handle_message date_parse pgh_encode s e message) = Raise x ->
  batch (fst (handle_message date_parse pgh_encode s e message)) = batch s.
Proof.
  unfold handle_message.
  destruct (get message "MessageType" JNull) as [t | y]; simpl; auto.
  destruct (eq_str t "PositionReport"); simpl; auto.
  destruct (extract_vessel_data _ _ _ _) as [vessel |]; simpl; auto.
  destruct (accumulate (batch s) vessel) as [b | y]; simpl; auto.
  discriminate.
Qed.

(** The batch stays below the threshold from one iteration to the next,
    as long as no [rollback()] raises. *)
Lemma batch_below_threshold s e :
  1 <= batch_size ->
  db_rollback_raises e = false ->
  dict_len (batch s) < batch_size ->
  dict_len (batch (iteration s e)) < batch_size.
Proof.
  intros Hpos Hrb Hsize. unfold Ingest.iteration, Ingest.receive.
  destruct (got e) as [message_raw |]; simpl.
  - destruct (json_loads message_raw) as [message |]; simpl; trivial.
    pose proof (handle_message_raises s e message) as Hb.
    destruct (handle_message _ _ _ _ _) as [s1 [[] | x]]; simpl in *.
    + destruct (Ingest.flush_trigger _ _ s1 e) eqn:E; simpl.
      * destruct (flush_in_loop_returns s1 e (or_intror Hrb)) as [-> _].
        unfold dict_len. simpl. lia.
      * unfold Ingest.flush_trigger in E. apply orb_false_iff in E as [E _].
        now apply Z.leb_gt in E.
    + now rewrite (Hb x eq_refl).
  - destruct (time_trigger _ _ _); simpl; trivial.
    destruct (flush_in_loop_returns s e (or_intror Hrb)) as [-> _].
    unfold dict_len. simpl. lia.
Qed.
End Loop.

Lemma rejection_counting_witness :
  (errors (st (svc (iteration Instances.parse_datetime Geohash.encode 1000 3
                      Scenario.two_held
                      (Scenario.arrival Unparsable 2 NoFault))))
   = errors (st (svc Scenario.two_held)) + 1)
  /\
  (errors (st (svc (iteration Instances.parse_datetime Geohash.encode 1000 3
                      Scenario.two_held
                      (Scenario.arrival (Parsed (JArr [])) 2 NoFault))))
   = errors (st (svc Scenario.two_held)) + 1)
  /\
  (errors (st (svc (iteration Instances.parse_datetime Geohash.encode 1000 3
                      Scenario.two_held
                      (Scenario.arrival Scenario.report_mmsi_0 2 NoFault))))
   = errors (st (svc Scenario.two_held)) + 0).
Proof.
  destruct (rejection_counting Instances.parse_datetime Geohash.encode 1000 3
              Scenario.two_held (Scenario.arrival Unparsable 2 NoFault))
    as (H1 & _ & _).
  destruct (rejection_counting Instances.parse_datetime Geohash.encode 1000 3
              Scenario.two_held
              (Scenario.arrival (Parsed (JArr [])) 2 NoFault))
    as (_ & H2 & _).
  destruct (rejection_counting Instances.parse_datetime Geohash.encode 1000 3
              Scenario.two_held
              (Scenario.arrival Scenario.report_mmsi_0 2 NoFault))
    as (_ & _ & H3).
  split; [| split].
  - apply H1. reflexivity.
  - apply (H2 (JArr [])); reflexivity.
  - apply H3. vm_compute. reflexivity.
Defined.

(** C2 as stated fails: a report without a usable vessel identifier is
    turned away by the decoder, and the error counter stays where it
    was. *)
Lemma rejected_report_is_not_counted :
  validator_rejects Instances.parse_datetime Geohash.encode
    (Scenario.arrival Scenario.report_mmsi_0 2 NoFault) = true
  /\ errors (st (svc (iteration Instances.parse_datetime Geohash.encode 1000 3
                        Scenario.start
                        (Scenario.arrival Scenario.report_mmsi_0 2 NoFault))))
     = errors (st (svc Scenario.start))
  /\ errors (st (svc (iteration Instances.parse_datetime Geohash.encode 1000 3
                        Scenario.start
                        (Scenario.arrival Scenario.report_mmsi_0 2 NoFault))))
     <> errors (st (svc Scenario.start)) + 1.
Proof.
  repeat split; vm_compute; trivial; discriminate.
Qed.

(** C3 fails on the code. With two records held for ten seconds and an
    interval of three, the batch is due; the iteration that receives a
    message that is not JSON leaves without testing for it: nothing is
    written, the batch and the start of the interval stay as they
    were. *)
Lemma unparsable_message_skips_due_flush :
  flush_trigger 1000 3 Scenario.two_held
    (Scenario.arrival Unparsable 10 NoFault) = true
  /\ flushed Instances.parse_datetime Geohash.encode 1000 3 Scenario.two_held
       (Scenario.arrival Unparsable 10 NoFault) = false
  /\ batch (iteration Instances.parse_datetime Geohash.encode 1000 3
              Scenario.two_held (Scenario.arrival Unparsable 10 NoFault))
     = batch Scenario.two_held
  /\ batch Scenario.two_held <> []
  /\ committed (db (svc (iteration Instances.parse_datetime Geohash.encode 1000 3
                           Scenario.two_held
                           (Scenario.arrival Unparsable 10 NoFault)))) = []
  /\ flushed Instances.parse_datetime Geohash.encode 1000 3 Scenario.two_held
       (Scenario.timeout 10 NoFault) = true.
Proof.
  repeat split; vm_compute; trivial; discriminate.
Qed.


(** *** The decoder *)
Section Decoder.
Variable date_parse : string -> option datetime.
Variable pgh_encode : Q -> Q -> nat -> string.

Local Abbreviation extract_vessel_data :=
  (extract_vessel_data date_parse pgh_encode).
Local Abbreviation extract_body := (extract_body date_parse pgh_encode).
Local Abbreviation validate := (validate date_parse pgh_encode).
Local Abbreviation encode_position := (encode_position pgh_encode).

Lemma get_object d k default :
  is_object d = true -> get d k default = Ok (lookup d k default).
Proof. destruct d; try discriminate. reflexivity. Qed.

(** On a message of the expected shape no read raises. *)
Lemma extract_body_shaped utcnow message :
  well_shaped message = true ->
  extract_body utcnow message
  = validate utcnow (msg_mmsi message) (msg_latitude message)
      (msg_longitude message) (msg_cog message) (msg_sog message)
      (lookup (msg_metadata message) "ShipType" JNull)
      (lookup (msg_metadata message) "time_utc" JNull).
Proof.
  unfold well_shaped. rewrite !andb_true_iff.
  intros [[[[[[[[Hm Hmeta] Hmsg] Hrep] _] _] _] _] _].
  unfold Ingest.extract_body.
  rewrite (get_object message "MetaData") by exact Hm.
  rewrite (get_object message "Message") by exact Hm.
  cbn [bind].
  rewrite (get_object _ "PositionReport") by exact Hmsg.
  cbn [bind]. fold (msg_metadata message). fold (msg_report message).
  rewrite !(get_object (msg_metadata message)) by exact Hmeta.
  rewrite !(get_object (msg_report message)) by exact Hrep.
  reflexivity.
Qed.

Lemma number_num v :
  number_or_null v = true -> v <> JNull -> exists f, num v = Some f.
Proof. destruct v; try discriminate; try congruence; simpl; eauto. Qed.

Lemma between_num lo hi v f :
  num v = Some f ->
  between lo v hi = Ok (fle (of_Z lo) f && fle f (of_Z hi)).
Proof.
  intros H. unfold between, int_le, le_int. rewrite H. cbn [bind].
  now destruct (fle (of_Z lo) f).
Qed.

Lemma between_excl_num lo hi v f :
  num v = Some f ->
  between_excl lo v hi = Ok (fle (of_Z lo) f && flt f (of_Z hi)).
Proof.
  intros H. unfold between_excl, int_le, lt_int. rewrite H. cbn [bind].
  now destruct (fle (of_Z lo) f).
Qed.

Lemma inside_iff lo hi v f :
  num v = Some f ->
  fle (of_Z lo) f && fle f (of_Z hi) = true <-> inside lo hi v.
Proof.
  intros H. unfold inside. rewrite H. split.
  - intros Hb. apply andb_true_iff in Hb as [H1 H2].
    destruct f as [q | | |]; try discriminate.
    exists q. split; trivial. split; now apply fle_Fin.
  - intros (q & Hq & H1 & H2). injection Hq as ->.
    apply andb_true_iff. split; now apply fle_Fin.
Qed.

Lemma inside_excl_iff lo hi v f :
  num v = Some f ->
  fle (of_Z lo) f && flt f (of_Z hi) = true <-> inside_excl lo hi v.
Proof.
  intros H. unfold inside_excl. rewrite H. split.
  - intros Hb. apply andb_true_iff in Hb as [H1 H2].
    destruct f as [q | | |]; try discriminate.
    exists q. split; trivial. split; [now apply fle_Fin | now apply flt_Fin].
  - intros (q & Hq & H1 & H2). injection Hq as ->.
    apply andb_true_iff. split; [now apply fle_Fin | now apply flt_Fin].
Qed.

Lemma negative_iff v f :
  num v = Some f -> flt f (of_Z 0) = true <-> negative v.
Proof.
  intros H. unfold negative. rewrite H. split.
  - destruct f as [q | | |]; try discriminate.
    + intros Hq. right. exists q. split; trivial. now apply flt_Fin in Hq.
    + now left.
  - intros [Hn | (q & Hq & Hlt)].
    + now injection Hn as ->.
    + injection Hq as ->. now apply flt_Fin.
Qed.

Lemma not_inside_null lo hi : ~ inside lo hi JNull.
Proof. intros (q & Hq & _). discriminate. Qed.

(** The test of line 208. *)
Lemma vessel_id_check v :
  int_or_null v = true ->
  exists b,
    (if negb (truthy v) then Ok true else le_int v 0) = Ok b
    /\ (b = true <-> bad_vessel_id v).
Proof.
  destruct v as [| | z | | | |]; try discriminate; intros _; simpl.
  - exists true. split; trivial. split; trivial. intros _. now left.
  - destruct (z =? 0) eqn:E; simpl.
    + apply Z.eqb_eq in E. exists true. split; trivial. split; trivial.
      intros _. right. exists z. split; trivial. lia.
    + apply Z.eqb_neq in E. unfold le_int. simpl. eexists. split; trivial.
      rewrite Qle_bool_iff, <- Zle_Qle. split.
      * intros H. right. now exists z.
      * intros [H | (z' & Hz & Hle)]; [discriminate |].
        now injection Hz as <-.
Qed.

(** The tests of lines 210 and 212. *)
Lemma range_check lo hi v :
  number_or_null v = true ->
  exists b,
    (if is_None v then Ok true else b <- between lo v hi ;; Ok (negb b)) = Ok b
    /\ (b = true <-> missing_or_outside lo hi v)
    /\ (b = false -> inside lo hi v).
Proof.
  intros Hn. destruct (is_None v) eqn:E.
  - destruct v; try discriminate. exists true.
    split; trivial. split; [| discriminate]. split; trivial. now left.
  - assert (Hv : v <> JNull) by (intros ->; discriminate).
    destruct (number_num v Hn Hv) as [f Hf].
    rewrite (between_num lo hi v f Hf). cbn [bind].
    pose proof (inside_iff lo hi v f Hf) as Hin.
    destruct (fle (of_Z lo) f && fle f (of_Z hi)); cbn [negb];
      eexists; (split; [reflexivity |]).
    + split.
      * split; [discriminate |].
        intros [H | H]; [congruence |]. exfalso. apply H. now apply Hin.
      * intros _. now apply Hin.
    + split; [| discriminate]. split; trivial. intros _. right.
      intros H. apply Hin in H. discriminate.
Qed.

(** The test of line 214. *)
Lemma course_check v :
  number_or_null v = true ->
  exists c,
    (if is_None v then Ok v
     else b <- between_excl 0 v 360 ;; Ok (if b then v else JNull)) = Ok c
    /\ (inside_excl 0 360 v -> c = v)
    /\ (~ inside_excl 0 360 v -> c = JNull).
Proof.
  intros Hn. destruct (is_None v) eqn:E.
  - destruct v; try discriminate. exists JNull. auto.
  - assert (Hv : v <> JNull) by (intros ->; discriminate).
    destruct (number_num v Hn Hv) as [f Hf].
    rewrite (between_excl_num 0 360 v f Hf). cbn [bind].
    pose proof (inside_excl_iff 0 360 v f Hf) as Hin.
    destruct (fle (of_Z 0) f && flt f (of_Z 360));
      eexists; (split; [reflexivity |]); split; trivial.
    + intros H. exfalso. apply H. now apply Hin.
    + intros H. apply Hin in H. discriminate.
Qed.

(** The test of line 216. *)
Lemma speed_check v :
  number_or_null v = true ->
  exists c,
    (if is_None v then Ok v
     else b <- lt_int v 0 ;; Ok (if b then JNull else v)) = Ok c
    /\ (negative v -> c = JNull)
    /\ (~ negative v -> c = v).
Proof.
  intros Hn. destruct (is_None v) eqn:E.
  - destruct v; try discriminate. exists JNull. auto.
  - assert (Hv : v <> JNull) by (intros ->; discriminate).
    destruct (number_num v Hn Hv) as [f Hf].
    unfold lt_int. rewrite Hf. cbn [bind].
    pose proof (negative_iff v f Hf) as Hneg.
    destruct (flt f (of_Z 0));
      eexists; (split; [reflexivity |]); split; trivial.
    + intros H. exfalso. apply H. now apply Hneg.
    + intros H. apply Hneg in H. discriminate.
Qed.

Lemma encode_position_inside lo1 hi1 lo2 hi2 lat lon :
  inside lo1 hi1 lat -> inside lo2 hi2 lon ->
  exists g, encode_position lat lon = Ok g.
Proof.
  intros (p & Hp & _) (q & Hq & _). unfold Ingest.encode_position.
  rewrite Hp, Hq. eauto.
Qed.

(** C6. A position report of the feed's shape is turned away exactly when
    its vessel identifier is missing or not positive, or its latitude is
    missing or outside [-90, 90], or its longitude is missing or outside
    [-180, 180]. A course outside [0, 360) or a negative speed plays no
    part in that: in the record that comes out, such a course or speed is
    absent, and the other fields are those of the message. *)
Theorem decoder_rejects_exactly (utcnow : Z) (message : json) :
  well_shaped message = true ->
  (extract_vessel_data utcnow message = None <->
     bad_vessel_id (msg_mmsi message)
     \/ missing_or_outside (-90) 90 (msg_latitude message)
     \/ missing_or_outside (-180) 180 (msg_longitude message))
  /\
  (forall r, extract_vessel_data utcnow message = Some r ->
     mmsi r = msg_mmsi message
     /\ latitude r = msg_latitude message
     /\ longitude r = msg_longitude message
     /\ (inside_excl 0 360 (msg_cog message) -> course r = msg_cog message)
     /\ (~ inside_excl 0 360 (msg_cog message) -> course r = JNull)
     /\ (negative (msg_sog message) -> speed r = JNull)
     /\ (~ negative (msg_sog message) -> speed r = msg_sog message)).
Proof.
  intros Hws. unfold Ingest.extract_vessel_data.
  rewrite (extract_body_shaped utcnow message Hws).
  unfold well_shaped in Hws. rewrite !andb_true_iff in Hws.
  destruct Hws as [[[[[[[[_ _] _] _] Hid] Hlat] Hlon] Hcog] Hsog].
  destruct (vessel_id_check _ Hid) as (b1 & E1 & H1).
  destruct (range_check (-90) 90 _ Hlat) as (b2 & E2 & H2 & I2).
  destruct (range_check (-180) 180 _ Hlon) as (b3 & E3 & H3 & I3).
  destruct (course_check _ Hcog) as (c & Ec & Hc1 & Hc2).
  destruct (speed_check _ Hsog) as (v & Ev & Hv1 & Hv2).
  unfold Ingest.validate. rewrite E1. cbn [bind].
  destruct b1.
  { split; [| discriminate]. split; trivial. intros _. left. now apply H1. }
  rewrite E2. cbn [bind]. destruct b2.
  { split; [| discriminate]. split; trivial. intros _. right. left.
    now apply H2. }
  rewrite E3. cbn [bind]. destruct b3.
  { split; [| discriminate]. split; trivial. intros _. right. right.
    now apply H3. }
  rewrite Ec, Ev. cbn [bind].
  destruct (encode_position_inside _ _ _ _ _ _ (I2 eq_refl) (I3 eq_refl))
    as [g Hg].
  rewrite Hg. cbn [bind]. split.
  - split; [discriminate |].
    intros [H | [H | H]]; [apply H1 in H | apply H2 in H | apply H3 in H];
      discriminate.
  - intros r Hr. injection Hr as <-. simpl. auto 10.
Qed.
End Decoder.

Lemma decoder_rejects_exactly_witness :
  exists r,
    extract_vessel_data Instances.parse_datetime Geohash.encode 0
      Scenario.report_cog_400 = Some r
    /\ course r = JNull /\ speed r = JNull.
Proof.
  destruct (decoder_rejects_exactly Instances.parse_datetime Geohash.encode 0
              Scenario.report_cog_400 eq_refl) as [_ H].
  destruct (extract_vessel_data Instances.parse_datetime Geohash.encode 0
              Scenario.report_cog_400) as [r |] eqn:E.
  - exists r. destruct (H r eq_refl) as (_ & _ & _ & _ & Hc & Hs & _).
    split; trivial. split.
    + apply Hc. intros (q & Hq & _ & Hlt). vm_compute in Hq.
      injection Hq as <-. vm_compute in Hlt. discriminate.
    + apply Hs. right. exists (-1)%Q. split; reflexivity.
  - vm_compute in E. discriminate.
Defined.


(** *** The pipeline on the three reports of vessel 123

    The three reports arrive within a second; nine seconds later the
    queue is empty and the interval has elapsed: one row is written, with
    the values of the first report observed at 00:00:30. *)
Example three_reports_one_row :
  let s := run Instances.parse_datetime Geohash.encode 1000 3 Scenario.start
             (Scenario.three_reports ++ [Scenario.timeout 10 NoFault]) in
  map (fun kv => (r_latitude (snd kv), r_last_updated (snd kv),
                  r_received_at (snd kv)))
      (committed (db (svc s)))
  = [(JInt 11, naive 1704067230000000, 10000000)]
  /\ batch s = []
  /\ vessels_upserted (st (svc s)) = 1
  /\ batches_processed (st (svc s)) = 1
  /\ errors (st (svc s)) = 0.
Proof. vm_compute. repeat split. Qed.


(** *** The reconnect delay *)






Example backoff_first_waits :
  backoff_schedule 7 = [5; 10; 20; 40; 60; 60; 60].
Proof. reflexivity. Qed.

(** *** The spatial key *)

Lemma slice_to_length n : forall s,
  (n <= String.length s)%nat -> String.length (slice_to n s) = n.
Proof.
  unfold slice_to. induction n as [| n IH]; intros [| c s] H; simpl in *;
    trivial; try lia.
  rewrite IH; [reflexivity | lia].
Qed.

Lemma slice_to_prefix n : forall s, prefix (slice_to n s) s = true.
Proof.
  unfold slice_to. induction n as [| n IH]; intros [| c s]; simpl; trivial.
  destruct (ascii_dec c c); [apply IH | congruence].
Qed.

Section SpatialKey.
Variable date_parse : string -> option datetime.
Variable pgh_encode : Q -> Q -> nat -> string.

(** The library returns as many characters as it is asked for. *)
Hypothesis pgh_encode_length :
  forall lat lon precision,
    String.length (pgh_encode lat lon precision) = precision.

Local Abbreviation extract_vessel_data :=
  (extract_vessel_data date_parse pgh_encode).
Local Abbreviation validate := (validate date_parse pgh_encode).
Local Abbreviation encode_position := (encode_position pgh_encode).

Lemma validate_keys utcnow a lat lon c v t ts r :
  validate utcnow a lat lon c v t ts = Ok (Some r) ->
  latitude r = lat /\ longitude r = lon
  /\ encode_position lat lon = Ok (geohash r)
  /\ geohash_5 r = slice_to 5 (geohash r).
Proof.
  unfold Ingest.validate.
  destruct (if negb (truthy a) then _ else _) as [[|] |]; cbn [bind];
    try discriminate.
  destruct (if is_None lat then _ else _) as [[|] |]; cbn [bind];
    try discriminate.
  destruct (if is_None lon then _ else _) as [[|] |]; cbn [bind];
    try discriminate.
  destruct (if is_None c then _ else _) as [c' |]; cbn [bind];
    try discriminate.
  destruct (if is_None v then _ else _) as [v' |]; cbn [bind];
    try discriminate.
  destruct (encode_position lat lon) as [g |] eqn:E; cbn [bind];
    try discriminate.
  intros H. injection H as <-. simpl. auto.
Qed.

Lemma extract_keys utcnow message r :
  extract_vessel_data utcnow message = Some r ->
  encode_position (latitude r) (longitude r) = Ok (geohash r)
  /\ geohash_5 r = slice_to 5 (geohash r).
Proof.
  unfold Ingest.extract_vessel_data, Ingest.extract_body.
  destruct (get message "MetaData" _) as [metadata |]; cbn [bind];
    try discriminate.
  destruct (get message "Message" _) as [msg |]; cbn [bind];
    try discriminate.
  destruct (get msg "PositionReport" _) as [report |]; cbn [bind];
    try discriminate.
  destruct (get metadata "MMSI" _) as [a |]; cbn [bind]; try discriminate.
  destruct (get report "Latitude" _) as [lat |]; cbn [bind];
    try discriminate.
  destruct (get report "Longitude" _) as [lon |]; cbn [bind];
    try discriminate.
  destruct (get report "Cog" _) as [c |]; cbn [bind]; try discriminate.
  destruct (get report "Sog" _) as [v |]; cbn [bind]; try discriminate.
  destruct (get metadata "ShipType" _) as [t |]; cbn [bind];
    try discriminate.
  destruct (get metadata "time_utc" _) as [ts |]; cbn [bind];
    try discriminate.
  destruct (validate utcnow a lat lon c v t ts) as [[r' |] |] eqn:E;
    try discriminate.
  intros H. injection H as ->.
  destruct (validate_keys _ _ _ _ _ _ _ _ _ E) as (-> & -> & Hg & H5).
  auto.
Qed.

Lemma encode_position_length lat lon g :
  encode_position lat lon = Ok g -> String.length g = 7%nat.
Proof.
  unfold Ingest.encode_position.
  destruct (num lat) as [[la | | |] |]; try discriminate.
  destruct (num lon) as [[lo | | |] |]; try discriminate.
  intros H. injection H as <-. apply pgh_encode_length.
Qed.

(** C9. The spatial keys of a record are a function of its latitude and
    longitude alone: two records with the same position, from whatever
    messages and at whatever time they were decoded, carry the same
    [geohash] and the same [geohash_5]. The [geohash] has exactly 7
    characters, and [geohash_5] is its first 5 characters, hence a prefix
    of it. *)
Theorem spatial_key_derivation (utcnow : Z) (message : json)
    (r : vessel_data) :
  extract_vessel_data utcnow message = Some r ->
  String.length (geohash r) = 7%nat
  /\ geohash_5 r = substring 0 5 (geohash r)
  /\ String.length (geohash_5 r) = 5%nat
  /\ prefix (geohash_5 r) (geohash r) = true
  /\ forall utcnow' message' r',
       extract_vessel_data utcnow' message' = Some r' ->
       latitude r' = latitude r ->
       longitude r' = longitude r ->
       geohash r' = geohash r /\ geohash_5 r' = geohash_5 r.
Proof.
  intros H. destruct (extract_keys _ _ _ H) as [Hg H5].
  pose proof (encode_position_length _ _ _ Hg) as Hlen.
  split; [exact Hlen |]. split; [exact H5 |]. rewrite H5.
  split; [apply slice_to_length; lia |].
  split; [apply slice_to_prefix |].
  intros utcnow' message' r' H' Hlat Hlon.
  destruct (extract_keys _ _ _ H') as [Hg' H5'].
  rewrite Hlat, Hlon, Hg in Hg'. injection Hg' as Hgg.
  rewrite H5', Hgg. auto.
Qed.
End SpatialKey.


Lemma spatial_key_derivation_witness :
  String.length (geohash Scenario.held_123) = 7%nat
  /\ geohash_5 Scenario.held_123 = substring 0 5 (geohash Scenario.held_123)
  /\ String.length (geohash_5 Scenario.held_123) = 5%nat
  /\ prefix (geohash_5 Scenario.held_123) (geohash Scenario.held_123) = true
  /\ forall utcnow' message' r',
       extract_vessel_data Instances.parse_datetime Geohash.encode utcnow' message'
       = Some r' ->
       latitude r' = latitude Scenario.held_123 ->
       longitude r' = longitude Scenario.held_123 ->
       geohash r' = geohash Scenario.held_123
       /\ geohash_5 r' = geohash_5 Scenario.held_123.
Proof.
  apply (spatial_key_derivation Instances.parse_datetime Geohash.encode
           GeohashFacts.encode_length 0
           (Scenario.position_report (JInt 123) (JInt 10) (JInt 20) (JInt 90)
              (JInt 5) (JStr "2024-01-01 00:00:10 UTC"))
           Scenario.held_123).
  vm_compute. reflexivity.
Defined.


End IngestFacts.

(* ------------------------------------------------------------------ *)
(** ** Properties of the query service *)

Module ApiFacts.
Import Api.

(** Newest first. *)
Local Abbreviation newest_first :=
  (StronglySorted (fun x y : vessel => last_updated y <= last_updated x)).

Lemma insert_desc_perm v l : Permutation (insert_desc v l) (v :: l).
Proof.
  induction l as [| w l IH]; simpl; trivial.
  destruct (last_updated w <? last_updated v); trivial.
  rewrite IH. apply perm_swap.
Qed.

Lemma order_desc_perm l : Permutation (order_desc l) l.
Proof.
  induction l as [| v l IH]; simpl; trivial.
  rewrite insert_desc_perm. now constructor.
Qed.

Lemma insert_desc_sorted v l :
  newest_first l -> newest_first (insert_desc v l).
Proof.
  induction l as [| w l IH]; intros Hs; simpl.
  - repeat constructor.
  - inversion Hs as [| ? ? Hl Hw]; subst.
    destruct (last_updated w <? last_updated v) eqn:E.
    + apply Z.ltb_lt in E. constructor; trivial.
      constructor; [lia |].
      eapply Forall_impl; [| exact Hw]. simpl. intros x Hx. lia.
    + apply Z.ltb_ge in E. constructor; [now apply IH |].
      eapply Permutation_Forall.
      * symmetry. apply insert_desc_perm.
      * now constructor.
Qed.

Lemma order_desc_sorted l : newest_first (order_desc l).
Proof.
  induction l as [| v l IH]; simpl; [constructor |].
  now apply insert_desc_sorted.
Qed.

Lemma within_finite lo x hi :
  within (of_Z lo) x (of_Z hi) = true -> exists q, x = Fin q.
Proof.
  unfold within. destruct x as [q | | |]; simpl; try discriminate; eauto.
Qed.

Section HandlerFacts.
Variable py_float : string -> res pyfloat.
Variable fromisoformat : string -> option Z.

Local Abbreviation parse_bbox := (parse_bbox py_float).
Local Abbreviation parse_delta := (parse_delta fromisoformat).
Local Abbreviation get_vessels := (get_vessels py_float fromisoformat).




(** A timestamp that parses is the delta of the request. *)
Lemma parse_delta_given s t :
  s <> EmptyString ->
  fromisoformat (replace s "Z" "+00:00") = Some t ->
  parse_delta (Some s) = (Some t, true).
Proof.
  intros Hs Ht. unfold Api.parse_delta.
  apply String.eqb_neq in Hs. now rewrite Hs, Ht.
Qed.

(** C10. A [lastUpdateTime] that does not parse is ignored: the answer is
    the one the same request gets without the parameter (so the request
    fails only if it fails without it: on a valid zoom and bounding box
    and a serving database the answer is a 200), no delta filter is
    applied, and [is_delta] is false. *)
Theorem unparsable_last_update_time_is_ignored (bbox : string) (zoom : Z)
    (s : string) (d : database) (db_now utcnow : Z) :
  fromisoformat (replace s "Z" "+00:00") = None ->
  parse_delta (Some s) = (None, false)
  /\ get_vessels bbox zoom (Some s) d db_now utcnow
     = get_vessels bbox zoom None d db_now utcnow
  /\ (forall body,
        get_vessels bbox zoom (Some s) d db_now utcnow = Http200 body ->
        is_delta body = false)
  /\ (forall rows min_lon min_lat max_lon max_lat,
        1 <= zoom <= 20 ->
        parse_bbox bbox = Ok (min_lon, min_lat, max_lon, max_lat) ->
        d = Serving rows ->
        get_vessels bbox zoom (Some s) d db_now utcnow
        = Http200
            {| vessels := query min_lat max_lat min_lon max_lon db_now None
                            rows;
               server_time := utcnow;
               count := Z.of_nat
                          (List.length
                             (query min_lat max_lat min_lon max_lon db_now
                                None rows));
               is_delta := false |}).
Proof.
  intros Hbad.
  assert (Hdelta : parse_delta (Some s) = (None, false)).
  { unfold Api.parse_delta. rewrite Hbad.
    now destruct (String.eqb s EmptyString). }
  split; [exact Hdelta |].
  unfold Api.get_vessels. rewrite Hdelta. cbn [Api.parse_delta].
  split; [reflexivity |]. split.
  - intros body.
    destruct (negb _); try discriminate.
    destruct (parse_bbox bbox) as [[[[? ?] ?] ?] |]; try discriminate.
    destruct d; try discriminate.
    intros H. injection H as <-. reflexivity.
  - intros rows min_lon min_lat max_lon max_lat Hzoom Hbox ->.
    assert ((1 <=? zoom) && (zoom <=? 20) = true) as ->.
    { apply andb_true_iff. split; apply Z.leb_le; lia. }
    cbn [negb]. now rewrite Hbox.
Qed.
End HandlerFacts.


(** The delta request of the scenario returns the one vessel seen after
    11:59:30 in the box. *)
Example delta_request_returns_newer_vessel :
  get_vessels Instances.decimal Instances.timestamp
    ApiScenario.north_sea 10 (Some "2024-01-01T11:59:30Z"%string)
    (Serving ApiScenario.rows) (ApiScenario.at_time 12 0 0)
    (ApiScenario.at_time 12 0 1)
  = Http200
      {| vessels := [ApiScenario.vessel_at 222 56 6
                       (ApiScenario.at_time 11 59 50)];
         server_time := ApiScenario.at_time 12 0 1;
         count := 1;
         is_delta := true |}.
Proof. vm_compute. reflexivity. Qed.

Lemma unparsable_last_update_time_is_ignored_witness :
  parse_delta Instances.timestamp (Some "yesterday"%string) = (None, false)
  /\ get_vessels Instances.decimal Instances.timestamp
       ApiScenario.north_sea 10 (Some "yesterday"%string)
       (Serving ApiScenario.rows) (ApiScenario.at_time 12 0 0)
       (ApiScenario.at_time 12 0 1)
     = get_vessels Instances.decimal Instances.timestamp
         ApiScenario.north_sea 10 None
         (Serving ApiScenario.rows) (ApiScenario.at_time 12 0 0)
         (ApiScenario.at_time 12 0 1).
Proof.
  destruct (unparsable_last_update_time_is_ignored Instances.decimal
              Instances.timestamp ApiScenario.north_sea 10
              "yesterday"%string (Serving ApiScenario.rows)
              (ApiScenario.at_time 12 0 0) (ApiScenario.at_time 12 0 1))
    as (H1 & H2 & _).
  - vm_compute. reflexivity.
  - split; [exact H1 | exact H2].
Defined.

(** The same request with an unparsable timestamp gets the two vessels
    of the box seen in the last two minutes, newest first. *)
Example unparsable_timestamp_returns_full_set :
  get_vessels Instances.decimal Instances.timestamp
    ApiScenario.north_sea 10 (Some "yesterday"%string)
    (Serving ApiScenario.rows) (ApiScenario.at_time 12 0 0)
    (ApiScenario.at_time 12 0 1)
  = Http200
      {| vessels := [ApiScenario.vessel_at 222 56 6
                       (ApiScenario.at_time 11 59 50);
                     ApiScenario.vessel_at 111 55 5
                       (ApiScenario.at_time 11 59 10)];
         server_time := ApiScenario.at_time 12 0 1;
         count := 2;
         is_delta := false |}.
Proof. vm_compute. reflexivity. Qed.


End ApiFacts.

(* ------------------------------------------------------------------ *)
(** ** The decoder on arbitrary messages *)

Module DecoderFacts.
Import Ingest PyFacts IngestFacts.

Section AnyMessage.
Variable date_parse : string -> option datetime.
Variable pgh_encode : Q -> Q -> nat -> string.

Local Abbreviation extract_vessel_data :=
  (extract_vessel_data date_parse pgh_encode).
Local Abbreviation extract_body := (extract_body date_parse pgh_encode).
Local Abbreviation validate := (validate date_parse pgh_encode).
Local Abbreviation parse_timestamp := (parse_timestamp date_parse).

(** What the checks have established when they let a record through. *)
Lemma validate_inv utcnow a lat lon c v t ts r :
  validate utcnow a lat lon c v t ts = Ok (Some r) ->
  truthy a = true
  /\ le_int a 0 = Ok false
  /\ between (-90) lat 90 = Ok true
  /\ between (-180) lon 180 = Ok true
  /\ (c = JNull /\ course r = JNull
      \/ exists b, between_excl 0 c 360 = Ok b
                   /\ course r = if b then c else JNull)
  /\ (v = JNull /\ speed r = JNull
      \/ exists b, lt_int v 0 = Ok b /\ speed r = if b then JNull else v)
  /\ mmsi r = a /\ latitude r = lat /\ longitude r = lon
  /\ ship_type r = t
  /\ last_updated r = parse_timestamp utcnow ts.
Proof.
  unfold Ingest.validate.
  destruct (truthy a); cbn [negb bind]; [| discriminate].
  destruct (le_int a 0) as [[|] |]; cbn [bind]; try discriminate.
  destruct (is_None lat) eqn:Nlat; cbn [bind]; [discriminate |].
  destruct (between (-90) lat 90) as [[|] |]; cbn [bind negb];
    try discriminate.
  destruct (is_None lon) eqn:Nlon; cbn [bind]; [discriminate |].
  destruct (between (-180) lon 180) as [[|] |]; cbn [bind negb];
    try discriminate.
  assert (Hc : (exists c',
             (if is_None c then Ok c
              else b <- between_excl 0 c 360 ;; Ok (if b then c else JNull))
             = Ok c'
             /\ (c = JNull /\ c' = JNull
                 \/ exists b, between_excl 0 c 360 = Ok b
                              /\ c' = if b then c else JNull))
           \/ (if is_None c then Ok c
               else b <- between_excl 0 c 360 ;; Ok (if b then c else JNull))
              = Raise TypeError).
  { destruct (is_None c) eqn:Nc.
    - left. exists c. split; trivial. left. destruct c; try discriminate. auto.
    - unfold between_excl, int_le, lt_int.
      destruct (num c) as [f |]; cbn [bind]; [| now right].
      left. destruct (fle (of_Z 0) f); cbn [bind]; eexists;
        (split; [reflexivity |]); right; eexists; split; reflexivity. }
  assert (Hv : (exists v',
             (if is_None v then Ok v
              else b <- lt_int v 0 ;; Ok (if b then JNull else v)) = Ok v'
             /\ (v = JNull /\ v' = JNull
                 \/ exists b, lt_int v 0 = Ok b
                              /\ v' = if b then JNull else v))
           \/ (if is_None v then Ok v
               else b <- lt_int v 0 ;; Ok (if b then JNull else v))
              = Raise TypeError).
  { destruct (is_None v) eqn:Nv.
    - left. exists v. split; trivial. left. destruct v; try discriminate. auto.
    - unfold lt_int. destruct (num v) as [f |]; cbn [bind]; [| now right].
      left. eexists. split; [reflexivity |]. right. eexists.
      split; reflexivity. }
  destruct Hc as [(c' & -> & Hc) | ->]; cbn [bind]; [| discriminate].
  destruct Hv as [(v' & -> & Hv) | ->]; cbn [bind]; [| discriminate].
  destruct (encode_position pgh_encode lat lon) as [g |]; cbn [bind];
    [| discriminate].
  intros H. injection H as <-. cbn. auto 12.
Qed.

Lemma bind_ok {A B : Type} (m : res A) (k : A -> res B) (x : B) :
  bind m k = Ok x -> exists a, m = Ok a /\ k a = Ok x.
Proof. destruct m as [a |]; [eauto | discriminate]. Qed.

Lemma get_ok d k default v :
  get d k default = Ok v -> is_object d = true /\ v = lookup d k default.
Proof.
  destruct d; try discriminate. unfold lookup. simpl.
  intros H. injection H as <-. auto.
Qed.

(** A record comes out only of an object whose [MetaData], [Message] and
    [PositionReport] are objects (or missing), and then out of the checks
    on its fields. *)
Lemma extract_inv utcnow message r :
  extract_vessel_data utcnow message = Some r ->
  is_object message = true
  /\ is_object (msg_metadata message) = true
  /\ is_object (lookup message "Message" (JObj [])) = true
  /\ is_object (msg_report message) = true
  /\ validate utcnow (msg_mmsi message) (msg_latitude message)
       (msg_longitude message) (msg_cog message) (msg_sog message)
       (lookup (msg_metadata message) "ShipType" JNull)
       (lookup (msg_metadata message) "time_utc" JNull)
     = Ok (Some r).
Proof.
  unfold Ingest.extract_vessel_data. intros H.
  assert (H0 : extract_body utcnow message = Ok (Some r)).
  { destruct (extract_body utcnow message) as [[r' |] |];
      try discriminate. now injection H as ->. }
  clear H. unfold Ingest.extract_body in H0.
  apply bind_ok in H0. destruct H0 as (metadata & Hg & H0).
  apply get_ok in Hg. destruct Hg as [Hm ->].
  apply bind_ok in H0. destruct H0 as (msg & Hg & H0).
  apply get_ok in Hg. destruct Hg as [_ ->].
  apply bind_ok in H0. destruct H0 as (report & Hg & H0).
  apply get_ok in Hg. destruct Hg as [Hmsg ->].
  apply bind_ok in H0. destruct H0 as (a & Hg & H0).
  apply get_ok in Hg. destruct Hg as [Hmeta ->].
  apply bind_ok in H0. destruct H0 as (lat & Hg & H0).
  apply get_ok in Hg. destruct Hg as [Hrep ->].
  apply bind_ok in H0. destruct H0 as (lon & Hg & H0).
  apply get_ok in Hg. destruct Hg as [_ ->].
  apply bind_ok in H0. destruct H0 as (c & Hg & H0).
  apply get_ok in Hg. destruct Hg as [_ ->].
  apply bind_ok in H0. destruct H0 as (v & Hg & H0).
  apply get_ok in Hg. destruct Hg as [_ ->].
  apply bind_ok in H0. destruct H0 as (t & Hg & H0).
  apply get_ok in Hg. destruct Hg as [_ ->].
  apply bind_ok in H0. destruct H0 as (ts & Hg & H0).
  apply get_ok in Hg. destruct Hg as [_ ->].
  auto.
Qed.

Lemma le_int_false_num a :
  le_int a 0 = Ok false ->
  exists f, num a = Some f /\ fle f (of_Z 0) = false.
Proof.
  unfold le_int. destruct (num a) as [f |]; [| discriminate].
  intros H. injection H as H. eauto.
Qed.

Lemma between_true_inside lo hi v :
  between lo v hi = Ok true -> inside lo hi v.
Proof.
  unfold between, int_le, le_int.
  destruct (num v) as [f |] eqn:Hf; cbn [bind]; [| discriminate].
  intros H. apply (inside_iff lo hi v f Hf).
  destruct (fle (of_Z lo) f); [| discriminate]. now injection H as ->.
Qed.

(** X1. Whatever the message, a record that the decoder lets through has
    a vessel identifier that is present and, when an integer, positive; a
    latitude within [-90, 90] and a longitude within [-180, 180]; a course
    that is absent or within [0, 360); and a speed that is absent or a
    number that is not negative. *)
Theorem accepted_record_is_in_range (utcnow : Z) (message : json)
    (r : vessel_data) :
  extract_vessel_data utcnow message = Some r ->
  mmsi r <> JNull
  /\ (forall z, mmsi r = JInt z -> 0 < z)
  /\ inside (-90) 90 (latitude r)
  /\ inside (-180) 180 (longitude r)
  /\ (course r = JNull \/ inside_excl 0 360 (course r))
  /\ (speed r = JNull
      \/ (exists f, num (speed r) = Some f) /\ ~ negative (speed r)).
Proof.
  intros H. destruct (extract_inv _ _ _ H) as (_ & _ & _ & _ & Hv).
  destruct (validate_inv _ _ _ _ _ _ _ _ _ Hv)
    as (Ht & Hle & Hlat & Hlon & Hc & Hs & -> & -> & -> & _ & _).
  split. { intros E. rewrite E in Ht. discriminate. }
  split.
  { intros z E. rewrite E in Hle. unfold le_int in Hle. simpl in Hle.
    injection Hle as Hle.
    destruct (Z.leb_spec z 0) as [Hz | Hz]; trivial.
    rewrite Zle_Qle in Hz. apply Qle_bool_iff in Hz. congruence. }
  split; [now apply between_true_inside |].
  split; [now apply between_true_inside |].
  split.
  - destruct Hc as [[_ Hc] | (b & Hb & Hc)]; [now left |].
    destruct b; [right | now left]. rewrite Hc.
    unfold between_excl, int_le, lt_int in Hb.
    destruct (num (msg_cog message)) as [f |] eqn:Hf; cbn [bind] in Hb;
      [| discriminate].
    apply (inside_excl_iff 0 360 _ f Hf).
    destruct (fle (of_Z 0) f); [| discriminate]. now injection Hb as ->.
  - destruct Hs as [[_ Hs] | (b & Hb & Hs)]; [now left |].
    destruct b; [now left | right]. rewrite Hs.
    unfold lt_int in Hb.
    destruct (num (msg_sog message)) as [f |] eqn:Hf; [| discriminate].
    injection Hb as Hb. split; [eauto |].
    intros Hneg. apply (negative_iff _ f Hf) in Hneg. congruence.
Qed.

(** X2. A record that the decoder lets through carries the vessel
    identifier, latitude, longitude and ship type of the message as they
    are (the ship type whatever its type); its course and speed are those
    of the message or absent; its observation time is the parsed
    [time_utc] when that is a non-empty string that parses once [" UTC"]
    is removed, and the offset-naive clock of the decoder in every other
    case. *)
Theorem accepted_record_copies_message (utcnow : Z) (message : json)
    (r : vessel_data) :
  extract_vessel_data utcnow message = Some r ->
  mmsi r = msg_mmsi message
  /\ latitude r = msg_latitude message
  /\ longitude r = msg_longitude message
  /\ ship_type r = lookup (msg_metadata message) "ShipType" JNull
  /\ (course r = msg_cog message \/ course r = JNull)
  /\ (speed r = msg_sog message \/ speed r = JNull)
  /\ (forall s t,
        lookup (msg_metadata message) "time_utc" JNull = JStr s ->
        s <> EmptyString ->
        date_parse (replace s " UTC" "") = Some t ->
        last_updated r = t)
  /\ ((forall s,
         lookup (msg_metadata message) "time_utc" JNull = JStr s ->
         s = EmptyString \/ date_parse (replace s " UTC" "") = None) ->
      last_updated r = naive utcnow).
Proof.
  intros H. destruct (extract_inv _ _ _ H) as (_ & _ & _ & _ & Hv).
  destruct (validate_inv _ _ _ _ _ _ _ _ _ Hv)
    as (_ & _ & _ & _ & Hc & Hs & Hm & Hlat & Hlon & Ht & Hts).
  repeat (split; [assumption |]).
  split.
  { destruct Hc as [[-> ->] | (b & _ & ->)]; [now left |].
    destruct b; auto. }
  split.
  { destruct Hs as [[-> ->] | (b & _ & ->)]; [now left |].
    destruct b; auto. }
  rewrite Hts. unfold Ingest.parse_timestamp.
  destruct (lookup (msg_metadata message) "time_utc" JNull) as
    [| b | z | f | s | l | kv] eqn:E.
  all: split; [intros s' t' Hs'; try discriminate |].
  all: try (intros _; now destruct (truthy _)).
  - injection Hs' as <-. intros Hne Hp. simpl.
    apply String.eqb_neq in Hne. now rewrite Hne, Hp.
  - intros Hall. simpl. destruct (Hall s eq_refl) as [-> | ->]; trivial.
    now destruct (negb _).
Qed.

(** X3. A message that is not an object, or whose [MetaData], [Message]
    or [PositionReport] is present and not an object, or in which the
    vessel identifier, the latitude, the longitude, the course or the
    speed is a string, a list or an object, gives no record: the
    exception raised on it ends as a rejection. *)
Theorem ill_typed_message_is_rejected (utcnow : Z) (message : json) :
  is_object message = false
  \/ is_object (msg_metadata message) = false
  \/ is_object (lookup message "Message" (JObj [])) = false
  \/ is_object (msg_report message) = false
  \/ not_a_number (msg_mmsi message)
  \/ not_a_number (msg_latitude message)
  \/ not_a_number (msg_longitude message)
  \/ not_a_number (msg_cog message)
  \/ not_a_number (msg_sog message) ->
  extract_vessel_data utcnow message = None.
Proof.
  intros Hbad.
  destruct (extract_vessel_data utcnow message) as [r |] eqn:H; trivial.
  exfalso.
  destruct (extract_inv _ _ _ H) as (Ho & Hmeta & Hmsg & Hrep & Hv).
  destruct (validate_inv _ _ _ _ _ _ _ _ _ Hv)
    as (_ & Hle & Hlat & Hlon & Hc & Hs & _).
  destruct (le_int_false_num _ Hle) as (f & Hf & _).
  destruct (between_true_inside _ _ _ Hlat) as (q1 & Hq1 & _).
  destruct (between_true_inside _ _ _ Hlon) as (q2 & Hq2 & _).
  destruct Hbad as [E | [E | [E | [E | [[_ E] | [[_ E] | [[_ E] | [[N E]
                   | [N E]]]]]]]]]; try congruence.
  - destruct Hc as [[Hn _] | (b & Hb & _)]; [congruence |].
    unfold between_excl, int_le in Hb. rewrite E in Hb. discriminate.
  - destruct Hs as [[Hn _] | (b & Hb & _)]; [congruence |].
    unfold lt_int in Hb. rewrite E in Hb. discriminate.
Qed.

End AnyMessage.

Lemma accepted_record_is_in_range_witness :
  mmsi Scenario.held_123 <> JNull
  /\ (forall z, mmsi Scenario.held_123 = JInt z -> 0 < z)
  /\ inside (-90) 90 (latitude Scenario.held_123)
  /\ inside (-180) 180 (longitude Scenario.held_123)
  /\ (course Scenario.held_123 = JNull
      \/ inside_excl 0 360 (course Scenario.held_123))
  /\ (speed Scenario.held_123 = JNull
      \/ (exists f, num (speed Scenario.held_123) = Some f)
         /\ ~ negative (speed Scenario.held_123)).
Proof.
  apply (accepted_record_is_in_range Instances.parse_datetime Geohash.encode 0
           (Scenario.position_report (JInt 123) (JInt 10) (JInt 20)
              (JInt 90) (JInt 5) (JStr "2024-01-01 00:00:10 UTC"))
           Scenario.held_123).
  vm_compute. reflexivity.
Defined.

Lemma accepted_record_copies_message_witness :
  exists r,
    extract_vessel_data Instances.parse_datetime Geohash.encode 42
      Scenario.report_no_time = Some r
    /\ ship_type r = JStr "tug"
    /\ last_updated r = naive 42.
Proof.
  destruct (extract_vessel_data Instances.parse_datetime Geohash.encode 42
              Scenario.report_no_time) as [r |] eqn:E.
  - exists r. split; trivial.
    destruct (accepted_record_copies_message Instances.parse_datetime
                Geohash.encode 42 Scenario.report_no_time r E)
      as (_ & _ & _ & Ht & _ & _ & _ & Hnow).
    split; [exact Ht |]. apply Hnow. intros s Hs. discriminate.
  - vm_compute in E. discriminate.
Defined.

Lemma ill_typed_message_is_rejected_witness :
  extract_vessel_data Instances.parse_datetime Geohash.encode 0
    Scenario.report_cog_text = None.
Proof.
  apply (ill_typed_message_is_rejected Instances.parse_datetime Geohash.encode 0
           Scenario.report_cog_text).
  do 7 right. left. split; [discriminate | reflexivity].
Defined.

End DecoderFacts.

(* ------------------------------------------------------------------ *)
(** ** Invariants of the accumulator loop *)

Module LoopFacts.
Import Ingest PyFacts IngestFacts.

(** *** Dictionaries with distinct keys *)
Section DistinctKeys.
Context {V : Type}.
Implicit Types (d : dict V) (k : json) (v : V).

Lemma distinct_keys_nil : distinct_keys (@nil (json * V)).
Proof. intros [| i] j k1 v1 k2 v2 _ H; discriminate. Qed.

Lemma distinct_keys_cons k v d :
  distinct_keys ((k, v) :: d) <->
  Forall (fun kv => key_eqb k (fst kv) = false) d /\ distinct_keys d.
Proof.
  split.
  - intros H. split.
    + apply Forall_forall. intros [k' v'] Hin.
      apply In_nth_error in Hin as [j Hj].
      apply (H 0%nat (S j) k v k' v'); trivial; lia.
    + intros i j k1 v1 k2 v2 Hij Hi Hj.
      apply (H (S i) (S j) k1 v1 k2 v2); trivial; lia.
  - intros [Hall Hd] i j k1 v1 k2 v2 Hij Hi Hj.
    rewrite Forall_forall in Hall.
    destruct i as [| i], j as [| j]; simpl in *; try lia.
    + injection Hi as <- <-. apply nth_error_In in Hj.
      apply (Hall _ Hj).
    + injection Hj as <- <-. apply nth_error_In in Hi.
      rewrite key_eqb_sym. apply (Hall _ Hi).
    + apply (Hd i j k1 v1 k2 v2); trivial; lia.
Qed.

Lemma dict_set_keys (Q : json -> Prop) k v d :
  Forall (fun kv => Q (fst kv)) d -> Q k ->
  Forall (fun kv => Q (fst kv)) (dict_set k v d).
Proof.
  intros Hd Hk. induction d as [| [k0 v0] rest IH]; simpl.
  - now constructor.
  - inversion Hd as [| ? ? H0 Hrest]; subst.
    destruct (key_eqb k0 k); constructor; auto.
Qed.

Lemma dict_set_values (Q : V -> Prop) k v d :
  Forall (fun kv => Q (snd kv)) d -> Q v ->
  Forall (fun kv => Q (snd kv)) (dict_set k v d).
Proof.
  intros Hd Hk. induction d as [| [k0 v0] rest IH]; simpl.
  - now constructor.
  - inversion Hd as [| ? ? H0 Hrest]; subst.
    destruct (key_eqb k0 k); constructor; auto.
Qed.

(** Assigning to a key keeps the keys distinct. *)
Lemma dict_set_distinct k v d :
  distinct_keys d -> distinct_keys (dict_set k v d).
Proof.
  induction d as [| [k0 v0] rest IH]; intros H; simpl.
  - apply distinct_keys_cons. split; [constructor | apply distinct_keys_nil].
  - apply distinct_keys_cons in H as [Hall Hd].
    destruct (key_eqb k0 k) eqn:E; apply distinct_keys_cons.
    + now split.
    + split; [| now apply IH].
      now apply (dict_set_keys (fun k' => key_eqb k0 k' = false)).
Qed.

Lemma dict_set_length k v d :
  (List.length (dict_set k v d) <= S (List.length d))%nat.
Proof.
  induction d as [| [k0 v0] rest IH]; simpl; [lia |].
  destruct (key_eqb k0 k); simpl; lia.
Qed.
End DistinctKeys.

Lemma key_eqb_carry a a' b b' :
  a = a' \/ key_eqb a a' = true ->
  b = b' \/ key_eqb b b' = true ->
  key_eqb a b = false ->
  key_eqb a' b' = false.
Proof.
  intros Ha Hb Hab. destruct (key_eqb a' b') eqn:E; trivial.
  assert (Haa : key_eqb a a' = true).
  { destruct Ha as [-> | Ha]; trivial. now apply key_eqb_refl_l with b'. }
  assert (Hbb : key_eqb b' b = true).
  { rewrite key_eqb_sym. destruct Hb as [-> | Hb]; trivial.
    rewrite key_eqb_sym in E. now apply key_eqb_refl_l with a'. }
  rewrite (key_eqb_trans _ _ _ (key_eqb_trans _ _ _ Haa E) Hbb) in Hab.
  discriminate.
Qed.

Lemma held_after_cases b v :
  held_after b v = b \/ held_after b v = dict_set (mmsi v) v b.
Proof.
  unfold held_after, accumulate, dt_gt.
  destruct (dict_get (mmsi v) b) as [held |]; auto.
  destruct (Bool.eqb _ _); cbn [bind]; auto.
  destruct (_ <? _); auto.
Qed.

Lemma held_after_distinct b v :
  distinct_keys b -> distinct_keys (held_after b v).
Proof.
  intros H. destruct (held_after_cases b v) as [-> | ->]; trivial.
  now apply dict_set_distinct.
Qed.

Lemma dict_set_filed b v :
  filed b -> filed (dict_set (mmsi v) v b).
Proof.
  unfold filed. induction b as [| [k0 v0] rest IH]; intros H; simpl.
  - constructor; [now left | constructor].
  - inversion H as [| ? ? H0 Hrest]; subst.
    destruct (key_eqb k0 (mmsi v)) eqn:E; constructor; auto.
Qed.

Lemma held_after_filed b v : filed b -> filed (held_after b v).
Proof.
  intros H. destruct (held_after_cases b v) as [-> | ->]; trivial.
  now apply dict_set_filed.
Qed.

Lemma held_after_length b v :
  dict_len (held_after b v) <= dict_len b + 1.
Proof.
  unfold dict_len.
  destruct (held_after_cases b v) as [-> | ->]; try lia.
  pose proof (dict_set_length (mmsi v) v b). lia.
Qed.

(** When the timestamps can be ordered, the batch is the merged one. *)
Lemma held_after_comparable b v :
  comparable b v -> held_after b v = merge b v.
Proof.
  intros H. unfold held_after. now rewrite accumulate_comparable.
Qed.

Lemma values_distinct b :
  distinct_keys b -> filed b -> distinct_vessels (dict_values b).
Proof.
  intros Hd Hf i j v w Hij Hi Hj. unfold dict_values in *.
  rewrite nth_error_map in Hi, Hj.
  destruct (nth_error b i) as [[k1 v1] |] eqn:Ei; [| discriminate].
  destruct (nth_error b j) as [[k2 v2] |] eqn:Ej; [| discriminate].
  simpl in Hi, Hj. injection Hi as <-. injection Hj as <-.
  unfold filed in Hf. rewrite Forall_forall in Hf.
  apply (key_eqb_carry k1 _ k2 _).
  - apply (Hf (k1, v1)). eapply nth_error_In; eassumption.
  - apply (Hf (k2, v2)). eapply nth_error_In; eassumption.
  - apply (Hd i j k1 v1 k2 v2); trivial.
Qed.

(** The entry of a vessel depends only on the records of that vessel. *)
Lemma held_after_only_own k : forall recs b1 b2,
  dict_get k b1 = dict_get k b2 ->
  dict_get k (fold_left held_after recs b1)
  = dict_get k (fold_left held_after
                  (filter (fun r => key_eqb (mmsi r) k) recs) b2).
Proof.
  induction recs as [| x recs IH]; intros b1 b2 H; simpl; trivial.
  destruct (key_eqb (mmsi x) k) eqn:E; simpl; apply IH.
  - pose proof (key_eqb_refl_l _ _ E) as Hxx.
    unfold held_after, accumulate.
    rewrite (dict_get_equiv (mmsi x) k b1 E), (dict_get_equiv (mmsi x) k b2 E).
    rewrite <- H. destruct (dict_get k b1) as [held |] eqn:E1.
    + destruct (dt_gt (last_updated x) (last_updated held)) as [[|] | y];
        cbn [bind].
      * rewrite !dict_get_set by exact Hxx. now rewrite E.
      * now rewrite <- H.
      * now rewrite <- H.
    + rewrite !dict_get_set by exact Hxx. now rewrite E.
  - destruct (held_after_cases b1 x) as [-> | ->]; trivial.
    now rewrite dict_get_set_other.
Qed.

(** On the records of one vessel whose timestamps can be ordered, no
    comparison raises. *)
Lemma held_after_own k a : forall recs b,
  Forall (fun r => key_eqb (mmsi r) k = true
                   /\ aware (last_updated r) = a) recs ->
  match dict_get k b with
  | None => True
  | Some h => aware (last_updated h) = a
  end ->
  fold_left held_after recs b = fold_left merge recs b.
Proof.
  induction recs as [| x recs IH]; intros b Hall Hb; simpl; trivial.
  inversion Hall as [| ? ? [Hx Ha] Hrest]; subst.
  assert (Hxx : key_eqb (mmsi x) (mmsi x) = true)
    by now apply key_eqb_refl_l with k.
  assert (Hc : comparable b x).
  { unfold comparable. rewrite (dict_get_equiv _ _ b Hx).
    destruct (dict_get k b); trivial. congruence. }
  rewrite (held_after_comparable b x Hc). apply IH; trivial.
  unfold merge. rewrite (dict_get_equiv _ _ b Hx).
  destruct (dict_get k b) as [h |] eqn:E.
  - destruct (_ <? _).
    + rewrite dict_get_set by exact Hxx. now rewrite Hx.
    + now rewrite E.
  - rewrite dict_get_set by exact Hxx. now rewrite Hx.
Qed.

(** The records of one vessel, ordered among themselves, all carry a
    time zone or none does. *)
Lemma comparable_own k recs :
  comparable_per_vessel (filter (fun r => key_eqb (mmsi r) k) recs) ->
  exists a,
    Forall (fun r => key_eqb (mmsi r) k = true
                     /\ aware (last_updated r) = a)
      (filter (fun r => key_eqb (mmsi r) k) recs).
Proof.
  intros H.
  destruct (filter (fun r => key_eqb (mmsi r) k) recs) as [| x own] eqn:E.
  - exists true. constructor.
  - exists (aware (last_updated x)). apply Forall_forall. intros r Hr.
    assert (Hk : forall y, In y (x :: own) -> key_eqb (mmsi y) k = true).
    { intros y Hy. rewrite <- E in Hy. now apply filter_In in Hy as [_ Hy]. }
    split; [now apply Hk |].
    apply H; trivial; [now left |].
    apply key_eqb_trans with k; [now apply Hk |].
    rewrite key_eqb_sym. apply Hk. now left.
Qed.

(** *** What an iteration does to the batch, the table and the counters *)
Section Iterations.
Variable date_parse : string -> option datetime.
Variable pgh_encode : Q -> Q -> nat -> string.
Variable batch_size : Z.
Variable batch_interval : Z.

Local Abbreviation iteration :=
  (iteration date_parse pgh_encode batch_size batch_interval).
Local Abbreviation receive :=
  (receive date_parse pgh_encode batch_size batch_interval).
Local Abbreviation flushed :=
  (flushed date_parse pgh_encode batch_size batch_interval).
Local Abbreviation run := (run date_parse pgh_encode batch_size batch_interval).
Local Abbreviation one_window :=
  (one_window date_parse pgh_encode batch_size batch_interval).
Local Abbreviation accepted := (accepted date_parse pgh_encode).
Local Abbreviation records := (records date_parse pgh_encode).
Local Abbreviation handle_message := (handle_message date_parse pgh_encode).

(** Before the flush test the batch has gained the accepted record, if
    there is one and the comparison did not raise, and nothing else has
    happened to it. *)
Lemma receive_batch s e :
  batch (fst (receive s e))
  = match accepted e with
    | Some r => held_after (batch s) r
    | None => batch s
    end.
Proof.
  unfold Ingest.receive, Ingest.accepted, Ingest.handle_message, lookup,
    held_after.
  destruct (got e) as [[| message] |]; trivial. simpl.
  destruct (get message "MessageType" JNull) as [t |]; simpl; trivial.
  destruct (eq_str t "PositionReport"); simpl; trivial.
  destruct (extract_vessel_data _ _ _ _) as [vessel |]; trivial.
  now destruct (accumulate _ vessel).
Qed.


Lemma receive_last_batch_time s e :
  last_batch_time (fst (receive s e)) = last_batch_time s.
Proof.
  unfold Ingest.receive, Ingest.handle_message.
  destruct (got e) as [[| message] |]; trivial. simpl.
  destruct (get message "MessageType" JNull) as [t |]; simpl; trivial.
  destruct (eq_str t "PositionReport"); simpl; trivial.
  destruct (extract_vessel_data _ _ _ _) as [vessel |]; trivial.
  now destruct (accumulate _ vessel).
Qed.

Lemma receive_position_reports s e :
  position_reports (st (svc (fst (receive s e))))
  = position_reports (st (svc s))
    + (if is_position_report e then 1 else 0).
Proof.
  unfold Ingest.receive, Ingest.handle_message, is_position_report, lookup.
  destruct (got e) as [[| message] |]; simpl; try lia.
  destruct message; simpl; try lia.
  destruct (eq_str _ "PositionReport"); simpl; [| lia].
  destruct (extract_vessel_data _ _ _ _) as [vessel |]; trivial.
  now destruct (accumulate _ vessel).
Qed.

(** The flush test is reached when the queue was empty or the message is
    a JSON object whose record, if it gives one, can be ordered against
    the one held. *)
Lemma receive_tests s e :
  got e = None
  \/ (exists message, got e = Some (Parsed message)
                      /\ is_object message = true) ->
  match accepted e with
  | Some r => comparable (batch s) r
  | None => True
  end ->
  snd (receive s e) <> None.
Proof.
  unfold Ingest.receive, Ingest.accepted.
  intros [-> | (message & -> & Hobj)] Hc; [discriminate |].
  simpl in *. unfold Ingest.handle_message, lookup in *.
  destruct message; try discriminate. simpl in *.
  destruct (eq_str _ _); [| discriminate].
  destruct (extract_vessel_data _ _ _ _) as [vessel |]; [| discriminate].
  rewrite (accumulate_comparable _ _ Hc). discriminate.
Qed.

Lemma iteration_cases s e :
  (flushed s e = true /\ iteration s e = flush_in_loop (fst (receive s e)) e)
  \/ (flushed s e = false /\ iteration s e = fst (receive s e)).
Proof.
  destruct (flushed s e) eqn:E.
  - left. split; trivial. now apply iteration_flushed.
  - right. split; trivial. now apply iteration_not_flushed.
Qed.

(** A flush in the loop, in full. *)
Lemma flush_in_loop_eq s e :
  flush_in_loop s e
  = let r := batch_upsert (db_now e) (db_fault e) (db_rollback_raises e)
               (svc s) (dict_values (batch s)) in
    match snd r with
    | Ok _ => {| batch := []; last_batch_time := t_reset e; svc := fst r |}
    | Raise _ =>
        with_stats count_error
          {| batch := batch s;
             last_batch_time := last_batch_time s;
             svc := fst r |}
    end.
Proof.
  unfold flush_in_loop, flush. cbv zeta.
  destruct (batch_upsert _ _ _ _ _) as [sv [[] | x]]; reflexivity.
Qed.

Lemma flush_in_loop_batch s e :
  batch (flush_in_loop s e) = [] \/ batch (flush_in_loop s e) = batch s.
Proof.
  rewrite flush_in_loop_eq. cbv zeta.
  destruct (snd _); simpl; auto.
Qed.

Lemma iteration_batch_inv (P : dict vessel_data -> Prop) s e :
  P [] ->
  (forall b v, P b -> P (held_after b v)) ->
  P (batch s) -> P (batch (iteration s e)).
Proof.
  intros Hnil Hacc Hs.
  assert (Hr : P (batch (fst (receive s e)))).
  { rewrite receive_batch. destruct (accepted e); auto. }
  destruct (iteration_cases s e) as [[_ ->] | [_ ->]]; trivial.
  now destruct (flush_in_loop_batch (fst (receive s e)) e) as [-> | ->].
Qed.

Lemma run_batch_inv (P : dict vessel_data -> Prop) es : forall s,
  P [] ->
  (forall b v, P b -> P (held_after b v)) ->
  P (batch s) -> P (batch (run s es)).
Proof.
  induction es as [| e es IH]; intros s Hnil Hacc Hs; trivial.
  unfold Ingest.run in *. simpl. apply IH; trivial.
  now apply iteration_batch_inv.
Qed.

(** X4. From the empty batch in which the loop starts, whatever arrives
    and whatever the database does, the batch never holds two entries
    with equal keys, and the list of records handed to the sink writer
    never holds two records of the same vessel. *)
Theorem batch_has_one_record_per_vessel (s : loop_state) (es : list tick) :
  batch s = [] ->
  distinct_keys (batch (run s es))
  /\ distinct_vessels (dict_values (batch (run s es))).
Proof.
  intros Hs.
  assert (H : distinct_keys (batch (run s es)) /\ filed (batch (run s es))).
  { apply (run_batch_inv (fun b => distinct_keys b /\ filed b)).
    - split; [apply distinct_keys_nil | constructor].
    - intros b v [Hd Hf]. split;
        [now apply held_after_distinct | now apply held_after_filed].
    - rewrite Hs. split; [apply distinct_keys_nil | constructor]. }
  destruct H as [Hd Hf]. split; trivial. now apply values_distinct.
Qed.

(** X5. With a threshold of at least one and as long as no [rollback()]
    raises, a batch that is below the threshold stays below it from one
    iteration to the next over any run, and no flush hands more than
    [batch_size] records to the sink writer. *)
Theorem batch_is_bounded (s : loop_state) (es : list tick) (e : tick) :
  1 <= batch_size ->
  Forall (fun x => db_rollback_raises x = false) es ->
  dict_len (batch s) < batch_size ->
  dict_len (batch (run s es)) < batch_size
  /\ dict_len (batch (fst (receive (run s es) e))) <= batch_size.
Proof.
  intros Hpos Hrb Hs.
  assert (H : dict_len (batch (run s es)) < batch_size).
  { revert s Hs. induction Hrb as [| x es Hx Hrest IH]; intros s Hs; trivial.
    unfold Ingest.run in *. simpl. apply IH.
    now apply batch_below_threshold. }
  split; trivial. rewrite receive_batch.
  destruct (accepted e) as [r |]; [| lia].
  pose proof (held_after_length (batch (run s es)) r). lia.
Qed.

(** Within one batch window the batch is the fold of the accepted
    records, whatever else arrives in between. *)
Lemma window_accumulates es : forall s,
  one_window s es = true ->
  batch (run s es) = fold_left held_after (records es) (batch s).
Proof.
  induction es as [| e es IH]; intros s Hq; trivial.
  simpl in Hq. apply andb_true_iff in Hq as [Hq1 Hq2].
  apply negb_true_iff in Hq1.
  unfold Ingest.run, Ingest.records in *. simpl.
  rewrite (IH _ Hq2), (iteration_not_flushed _ _ _ _ s e Hq1), receive_batch.
  rewrite fold_left_app. now destruct (accepted e).
Qed.

(** X6. Within one batch window, whatever the messages in between
    (other vessels, rejected reports, other message types, garbage), the
    batch holds for a vessel that was not in it before nothing if no
    record of the vessel was accepted, and otherwise, provided the
    timestamps of the accepted records of the vessel are all offset-naive
    or all offset-aware, the first of the newest of them. *)
Theorem window_keeps_newest_of_each_vessel (s : loop_state)
    (es : list tick) (k : json) :
  one_window s es = true ->
  dict_get k (batch s) = None ->
  comparable_per_vessel
    (filter (fun r => key_eqb (mmsi r) k) (records es)) ->
  match filter (fun r => key_eqb (mmsi r) k) (records es) with
  | [] => dict_get k (batch (run s es)) = None
  | own =>
      exists r, dict_get k (batch (run s es)) = Some r /\ first_newest own r
  end.
Proof.
  intros Hwin Hnew Hcmp. rewrite (window_accumulates es s Hwin).
  rewrite (held_after_only_own k (records es) (batch s) (batch s) eq_refl).
  destruct (comparable_own k (records es) Hcmp) as [a Hall].
  rewrite (held_after_own k a _ (batch s) Hall) by now rewrite Hnew.
  destruct (filter (fun r => key_eqb (mmsi r) k) (records es))
    as [| x own] eqn:E; trivial.
  apply accumulate_first_newest; trivial; [discriminate |].
  apply Forall_forall. intros r Hr. rewrite Forall_forall in Hall.
  now apply Hall.
Qed.

(** X7. In an iteration that finds the queue empty or receives a JSON
    object whose record, if the decoder accepts it, has a timestamp that
    can be ordered against the one held for its vessel, with the batch
    below the threshold at its start: the batch is flushed exactly when,
    after the message has been taken in, it has reached the threshold or
    is non-empty with the interval elapsed. A flush hands the values of
    the batch to the sink writer; when the writer returns, the batch is
    emptied and the interval restarts; when it raises, the batch and the
    start of the interval stay as they are and an error is counted.
    Without a flush the iteration leaves the batch as the message made
    it. *)
Theorem flush_decision (s : loop_state) (e : tick) :
  got e = None
  \/ (exists message, got e = Some (Parsed message)
                      /\ is_object message = true) ->
  match accepted e with
  | Some r => comparable (batch s) r
  | None => True
  end ->
  dict_len (batch s) < batch_size ->
  (flushed s e = true <->
     batch_size <= dict_len (batch (fst (receive s e)))
     \/ (batch (fst (receive s e)) <> []
         /\ (inject_Z batch_interval <= t_check e - last_batch_time s)%Q))
  /\ (flushed s e = true ->
        iteration s e
        = let written :=
            batch_upsert (db_now e) (db_fault e) (db_rollback_raises e)
              (svc (fst (receive s e)))
              (dict_values (batch (fst (receive s e)))) in
          match snd written with
          | Ok _ =>
              {| batch := [];
                 last_batch_time := t_reset e;
                 svc := fst written |}
          | Raise _ =>
              with_stats count_error
                {| batch := batch (fst (receive s e));
                   last_batch_time := last_batch_time s;
                   svc := fst written |}
          end)
  /\ (flushed s e = false -> iteration s e = fst (receive s e)).
Proof.
  intros Hgot Hcmp Hsize.
  pose proof (receive_tests s e Hgot Hcmp) as Htest.
  rewrite (flushed_iff_trigger _ _ _ _ s e Htest Hsize).
  split; [| split].
  - unfold flush_trigger, time_trigger, interval_elapsed.
    rewrite receive_last_batch_time.
    rewrite orb_true_iff, andb_true_iff, Z.leb_le, Qle_bool_iff.
    assert (Hne : forall b : dict vessel_data,
               dict_nonempty b = true <-> b <> []).
    { intros [| x b]; simpl; split; congruence. }
    rewrite Hne. reflexivity.
  - intros H. rewrite <- (receive_last_batch_time s e).
    rewrite <- flush_in_loop_eq. apply iteration_flushed.
    now rewrite (flushed_iff_trigger _ _ _ _ s e Htest Hsize).
  - intros H. apply iteration_not_flushed.
    now rewrite (flushed_iff_trigger _ _ _ _ s e Htest Hsize).
Qed.

(** X8. Over any run, [position_reports] goes up by exactly the number
    of iterations that received a JSON object whose [MessageType] is
    [PositionReport], whether the decoder accepted the report or not;
    flushes, other messages and errors leave it alone. *)
Theorem position_reports_counts_reports (es : list tick) :
  forall s,
    position_reports (st (svc (run s es)))
    = position_reports (st (svc s))
      + Z.of_nat (List.length (filter is_position_report es)).
Proof.
  induction es as [| e es IH]; intros s; simpl; [lia |].
  unfold Ingest.run in *. simpl. rewrite IH.
  assert (H : position_reports (st (svc (iteration s e)))
              = position_reports (st (svc s))
                + (if is_position_report e then 1 else 0)).
  { rewrite <- receive_position_reports.
    destruct (iteration_cases s e) as [[_ ->] | [_ ->]]; trivial.
    apply flush_in_loop_position_reports. }
  rewrite H. destruct (is_position_report e); cbn [List.length]; lia.
Qed.


End Iterations.

Lemma batch_has_one_record_per_vessel_witness :
  distinct_keys
    (batch (run Instances.parse_datetime Geohash.encode 1000 3 Scenario.start
              Scenario.mixed_window))
  /\ distinct_vessels
       (dict_values
          (batch (run Instances.parse_datetime Geohash.encode 1000 3
                    Scenario.start Scenario.mixed_window))).
Proof.
  apply (batch_has_one_record_per_vessel Instances.parse_datetime
           Geohash.encode 1000 3 Scenario.start Scenario.mixed_window).
  reflexivity.
Defined.

Lemma batch_is_bounded_witness :
  dict_len
    (batch (run Instances.parse_datetime Geohash.encode 2 3 Scenario.start
              Scenario.mixed_window)) < 2
  /\ dict_len
       (batch (fst (receive Instances.parse_datetime Geohash.encode 2 3
                      (run Instances.parse_datetime Geohash.encode 2 3
                         Scenario.start Scenario.mixed_window)
                      (Scenario.arrival Scenario.report_123 2 NoFault))))
     <= 2.
Proof.
  apply (batch_is_bounded Instances.parse_datetime Geohash.encode 2 3
           Scenario.start Scenario.mixed_window
           (Scenario.arrival Scenario.report_123 2 NoFault)).
  - lia.
  - repeat constructor.
  - vm_compute. reflexivity.
Defined.

(** Why X5 needs its proviso: with a threshold of one, a report arrives
    while the connection is lost; the flush raises and the record stays
    in the batch, so the flush of the next report hands two records to
    the sink writer. *)
Example lost_connection_lets_the_batch_grow :
  let s := iteration Instances.parse_datetime Geohash.encode 1 3
             Scenario.start Scenario.report_123_on_lost_connection in
  dict_len (batch s) = 1
  /\ flushed Instances.parse_datetime Geohash.encode 1 3 s
       (Scenario.arrival Scenario.report_456 2 NoFault) = true
  /\ dict_len
       (batch (fst (receive Instances.parse_datetime Geohash.encode 1 3 s
                      (Scenario.arrival Scenario.report_456 2 NoFault))))
     = 2.
Proof. vm_compute. repeat split. Qed.

Lemma window_keeps_newest_of_each_vessel_witness :
  exists r,
    dict_get (JInt 123)
      (batch (run Instances.parse_datetime Geohash.encode 1000 3
                Scenario.start Scenario.mixed_window)) = Some r
    /\ first_newest
         (filter (fun x => key_eqb (mmsi x) (JInt 123))
            (records Instances.parse_datetime Geohash.encode
               Scenario.mixed_window)) r.
Proof.
  pose proof (window_keeps_newest_of_each_vessel Instances.parse_datetime
                Geohash.encode 1000 3 Scenario.start Scenario.mixed_window
                (JInt 123)) as H.
  destruct (filter (fun x => key_eqb (mmsi x) (JInt 123))
              (records Instances.parse_datetime Geohash.encode
                 Scenario.mixed_window)) as [| x own] eqn:E.
  - vm_compute in E. discriminate.
  - apply H.
    + vm_compute. reflexivity.
    + reflexivity.
    + vm_compute in E. injection E as <- <-.
      intros r1 r2 [<- | [<- | []]] [<- | [<- | []]] _; reflexivity.
Defined.

Lemma flush_decision_witness :
  flushed Instances.parse_datetime Geohash.encode 1000 3 Scenario.two_held
    (Scenario.timeout 10 NoFault) = true
  /\ batch (iteration Instances.parse_datetime Geohash.encode 1000 3
              Scenario.two_held (Scenario.timeout 10 NoFault)) = []
  /\ last_batch_time (iteration Instances.parse_datetime Geohash.encode
                        1000 3 Scenario.two_held
                        (Scenario.timeout 10 NoFault))
     = inject_Z 10.
Proof.
  destruct (flush_decision Instances.parse_datetime Geohash.encode 1000 3
              Scenario.two_held (Scenario.timeout 10 NoFault))
    as (Hiff & Hflush & _).
  - left. reflexivity.
  - exact I.
  - vm_compute. reflexivity.
  - assert (Hf : flushed Instances.parse_datetime Geohash.encode 1000 3
                   Scenario.two_held (Scenario.timeout 10 NoFault) = true).
    { apply Hiff. right. split.
      - vm_compute. discriminate.
      - vm_compute. discriminate. }
    split; [exact Hf |]. rewrite (Hflush Hf). split; reflexivity.
Defined.


End LoopFacts.


(* ------------------------------------------------------------------ *)
(** ** What the sink writer leaves in the table *)

Module SinkFacts.
Import Ingest PyFacts IngestFacts LoopFacts.

Lemma distinct_vessels_cons w rest :
  distinct_vessels (w :: rest) ->
  Forall (fun x => key_eqb (mmsi w) (mmsi x) = false) rest
  /\ distinct_vessels rest.
Proof.
  intros H. split.
  - apply Forall_forall. intros x Hin.
    apply In_nth_error in Hin as [j Hj].
    apply (H 0%nat (S j) w x); trivial; lia.
  - intros i j v x Hij Hi Hj. apply (H (S i) (S j) v x); trivial; lia.
Qed.




Section Writes.
Variable now : Z.

(** Rows of vessels that are not written stay as they are. *)
Lemma fold_upsert_other k : forall values t,
  Forall (fun v => key_eqb (mmsi v) k = false) values ->
  dict_get k (fold_left (upsert_row now) values t) = dict_get k t.
Proof.
  induction values as [| w values IH]; intros t H; simpl; trivial.
  inversion H as [| ? ? Hw Hrest]; subst.
  rewrite (IH _ Hrest), upsert_row_get. now rewrite Hw.
Qed.

(** The row of a written vessel is the one its tuple produces. *)
Lemma fold_upsert_written : forall values t v,
  distinct_vessels values ->
  In v values ->
  key_eqb (mmsi v) (mmsi v) = true ->
  dict_get (mmsi v) (fold_left (upsert_row now) values t)
  = Some (match dict_get (mmsi v) t with
          | None => inserted_row now v
          | Some old => updated_row now old v
          end).
Proof.
  induction values as [| w values IH]; intros t v Hd Hin Hkey; [easy |].
  apply distinct_vessels_cons in Hd as [Hw Hd]. simpl.
  destruct Hin as [-> | Hin].
  - rewrite fold_upsert_other.
    + now rewrite upsert_row_get, Hkey.
    + eapply Forall_impl; [| exact Hw]. simpl. intros x Hx.
      now rewrite key_eqb_sym.
  - rewrite (IH _ v Hd Hin Hkey), upsert_row_get.
    rewrite Forall_forall in Hw. now rewrite (Hw v Hin).
Qed.



(** X11. A write, whether it goes through or fails, leaves the row of
    every vessel that is not in the batch exactly as it was, and creates
    none for it. *)
Theorem other_rows_are_untouched (f : fault) (rollback_raises : bool)
    (s : service) (batch : list vessel_data) (k : json) :
  idle (db s) ->
  Forall (fun v => key_eqb (mmsi v) k = false) batch ->
  dict_get k
    (committed (db (fst (batch_upsert now f rollback_raises s batch))))
  = dict_get k (committed (db s)).
Proof.
  intros Hidle Hother. rewrite batch_upsert_committed.
  destruct (tx_fails f batch || _); trivial.
  rewrite fold_upsert_other by exact Hother. now rewrite Hidle.
Qed.

End Writes.

Lemma same_observation_refl r : same_observation r r.
Proof. repeat split. Qed.

Lemma existsb_false_Forall {A : Type} (p : A -> bool) l :
  existsb p l = false -> Forall (fun x => p x = false) l.
Proof.
  induction l as [| x l IH]; simpl; [constructor |].
  intros H. apply orb_false_iff in H as [Hx Hl]. constructor; auto.
Qed.

(** X13. Writing the same batch (of distinct vessels) a second time, at
    another time, changes nothing in the table but [received_at]: under
    every key the table has a row after the second write exactly when it
    had one after the first, and the two rows agree on every other
    column. *)
Theorem replayed_batch_changes_only_received_at (now1 now2 : Z)
    (rb1 rb2 : bool) (s : service) (batch : list vessel_data) (k : json) :
  idle (db s) ->
  distinct_vessels batch ->
  Forall (fun v => key_eqb (mmsi v) (mmsi v) = true) batch ->
  match
    dict_get k (committed (db (fst (batch_upsert now1 NoFault rb1 s batch)))),
    dict_get k
      (committed
         (db (fst (batch_upsert now2 NoFault rb2
                     (fst (batch_upsert now1 NoFault rb1 s batch))
                     batch))))
  with
  | Some r1, Some r2 => same_observation r1 r2
  | None, None => True
  | _, _ => False
  end.
Proof.
  intros Hidle Hd Hkeys. destruct batch as [| v0 b0].
  { simpl. destruct (dict_get k (committed (db s))); trivial.
    apply same_observation_refl. }
  set (batch := v0 :: b0) in *.
  assert (Hne : batch <> []) by discriminate.
  rewrite (batch_upsert_commits now1 NoFault rb1 s batch Hne eq_refl).
  cbn [fst].
  rewrite (batch_upsert_commits now2 NoFault rb2 _ batch Hne eq_refl).
  cbn [fst db committed pending]. rewrite Hidle.
  set (t0 := committed (db s)).
  destruct (existsb (fun v => key_eqb (mmsi v) k) batch) eqn:Ex.
  - apply existsb_exists in Ex as (v & Hin & Hk).
    rewrite Forall_forall in Hkeys. pose proof (Hkeys v Hin) as Hvv.
    rewrite <- !(dict_get_equiv (mmsi v) k _ Hk).
    rewrite (fold_upsert_written now2 batch _ v Hd Hin Hvv).
    rewrite (fold_upsert_written now1 batch t0 v Hd Hin Hvv).
    destruct (dict_get (mmsi v) t0); repeat split.
  - apply existsb_false_Forall in Ex.
    rewrite !fold_upsert_other by exact Ex.
    destruct (dict_get k t0); trivial. apply same_observation_refl.
Qed.


Section EndToEnd.
Variable date_parse : string -> option datetime.
Variable pgh_encode : Q -> Q -> nat -> string.
Variable batch_size : Z.
Variable batch_interval : Z.

Local Abbreviation iteration :=
  (iteration date_parse pgh_encode batch_size batch_interval).
Local Abbreviation receive :=
  (receive date_parse pgh_encode batch_size batch_interval).
Local Abbreviation flushed :=
  (flushed date_parse pgh_encode batch_size batch_interval).
Local Abbreviation run := (run date_parse pgh_encode batch_size batch_interval).
Local Abbreviation one_window :=
  (one_window date_parse pgh_encode batch_size batch_interval).
Local Abbreviation records := (records date_parse pgh_encode).

Lemma run_invariants s es :
  batch s = [] ->
  distinct_keys (batch (run s es)) /\ filed (batch (run s es)).
Proof.
  intros Hs.
  apply (run_batch_inv _ _ _ _ (fun b => distinct_keys b /\ filed b)).
  - split; [apply distinct_keys_nil | constructor].
  - intros b v [Hd Hf]. split;
      [now apply held_after_distinct | now apply held_after_filed].
  - rewrite Hs. split; [apply distinct_keys_nil | constructor].
Qed.



End EndToEnd.

Lemma two_held_invariants :
  distinct_keys (batch Scenario.two_held) /\ filed (batch Scenario.two_held).
Proof.
  apply (run_invariants Instances.parse_datetime Geohash.encode 1000 3
           Scenario.start
           [Scenario.arrival Scenario.report_123 1 NoFault;
            Scenario.arrival Scenario.report_456 1 NoFault]).
  reflexivity.
Qed.

Lemma two_held_values_distinct :
  distinct_vessels (dict_values (batch Scenario.two_held)).
Proof.
  destruct two_held_invariants as [Hd Hf]. now apply values_distinct.
Defined.


Lemma other_rows_are_untouched_witness :
  dict_get (JInt 123)
    (committed (db (fst (batch_upsert 9000000 NoFault false
                           Scenario.stored_123 [Scenario.held_456]))))
  = dict_get (JInt 123) (committed (db Scenario.stored_123)).
Proof.
  apply (other_rows_are_untouched 9000000 NoFault false Scenario.stored_123
           [Scenario.held_456] (JInt 123)).
  - vm_compute. reflexivity.
  - constructor; [vm_compute; reflexivity | constructor].
Defined.

Lemma replayed_batch_changes_only_received_at_witness :
  exists r1 r2,
    dict_get (JInt 123)
      (committed (db (fst (batch_upsert 5000000 NoFault false
                             (svc Scenario.start)
                             (dict_values (batch Scenario.two_held))))))
    = Some r1
    /\ dict_get (JInt 123)
         (committed
            (db (fst (batch_upsert 9000000 NoFault false
                        (fst (batch_upsert 5000000 NoFault false
                                (svc Scenario.start)
                                (dict_values (batch Scenario.two_held))))
                        (dict_values (batch Scenario.two_held))))))
       = Some r2
    /\ same_observation r1 r2
    /\ r_received_at r1 = 5000000 /\ r_received_at r2 = 9000000.
Proof.
  pose proof (replayed_batch_changes_only_received_at 5000000 9000000
                false false (svc Scenario.start) (dict_values (batch Scenario.two_held))
                (JInt 123) eq_refl two_held_values_distinct) as H.
  destruct (dict_get (JInt 123)
              (committed (db (fst (batch_upsert 5000000 NoFault false
                                     (svc Scenario.start)
                                     (dict_values
                                        (batch Scenario.two_held)))))))
    as [r1 |] eqn:E1; [| vm_compute in E1; discriminate].
  destruct (dict_get (JInt 123)
              (committed
                 (db (fst (batch_upsert 9000000 NoFault false
                             (fst (batch_upsert 5000000 NoFault false
                                     (svc Scenario.start)
                                     (dict_values
                                        (batch Scenario.two_held))))
                             (dict_values (batch Scenario.two_held)))))))
    as [r2 |] eqn:E2; [| vm_compute in E2; discriminate].
  exists r1, r2. split; trivial. split; trivial. split.
  - apply H. repeat constructor.
  - vm_compute in E1, E2. injection E1 as <-. injection E2 as <-.
    split; reflexivity.
Defined.



End SinkFacts.

(* ------------------------------------------------------------------ *)
(** ** The reconnect loop over any history *)

Module ClientFacts.
Import Ingest.

(** X16. Over any history of connection attempts, the error counter goes
    up by the number of attempts that ended in an exception, and the
    client sleeps once for each of those that found the service still
    running: an attempt that ends without an exception (the peer closed
    the connection after the subscription) is followed by a reconnect
    without a wait. *)
Theorem reconnects_are_counted (l : list attempt) :
  forall c,
    client_errors (connect_websocket c l)
    = client_errors c + Z.of_nat (List.length (filter raised l))
    /\ List.length (sleeps (connect_websocket c l))
       = (List.length (sleeps c)
          + List.length (filter (fun a => raised a && running_after a) l))%nat.
Proof.
  induction l as [| a l IH]; intros c; simpl.
  - split; lia.
  - unfold connect_websocket in *. simpl.
    destruct (IH (connect_attempt c a)) as [He Hs]. rewrite He, Hs.
    unfold connect_attempt.
    destruct (raised a), (running_after a); cbn [andb client_errors sleeps];
      rewrite ?length_app; cbn [List.length]; split; lia.
Qed.

End ClientFacts.

(* ------------------------------------------------------------------ *)
(** ** More on the query service *)

Module ApiMore.
Import Api ApiFacts.

Local Abbreviation newest_first :=
  (StronglySorted (fun x y : vessel => last_updated y <= last_updated x)).

Lemma filter_perm {A : Type} (p : A -> bool) l l' :
  Permutation l l' -> Permutation (filter p l) (filter p l').
Proof.
  induction 1 as [| x l l' _ IH | x y l | l l' l'' _ IH1 _ IH2]; simpl.
  - constructor.
  - destruct (p x); [now constructor | exact IH].
  - destruct (p x), (p y); try reflexivity. apply perm_swap.
  - now transitivity (filter p l').
Qed.

Lemma filter_andb {A : Type} (p q : A -> bool) l :
  filter (fun x => p x && q x) l = filter q (filter p l).
Proof.
  induction l as [| x l IH]; simpl; trivial.
  destruct (p x); simpl; [destruct (q x) |]; now rewrite IH.
Qed.

(** The delta query selects the rows of the full query that are newer
    than the client's state, whatever the order of the two answers. *)
Lemma query_delta min_lat max_lat min_lon max_lon now t rows :
  Permutation
    (query min_lat max_lat min_lon max_lon now (Some t) rows)
    (filter (fun v => t <? last_updated v)
       (query min_lat max_lat min_lon max_lon now None rows)).
Proof.
  unfold query. rewrite order_desc_perm.
  rewrite (filter_perm _ _ _ (order_desc_perm _)).
  rewrite <- filter_andb.
  erewrite filter_ext; [reflexivity |]. intros v.
  unfold selected, after_delta. now rewrite andb_true_r.
Qed.

Lemma NoDup_map_filter {A B : Type} (f : A -> B) (p : A -> bool) l :
  NoDup (map f l) -> NoDup (map f (filter p l)).
Proof.
  induction l as [| x l IH]; simpl; trivial.
  intros H. inversion H as [| ? ? Hx Hl]; subst.
  destruct (p x); simpl; [| now apply IH].
  constructor; [| now apply IH].
  intros Hin. apply Hx. apply in_map_iff in Hin as (y & Hy & Hin).
  apply filter_In in Hin as [Hin _]. apply in_map_iff. eauto.
Qed.

Section HandlerMore.
Variable py_float : string -> res pyfloat.
Variable fromisoformat : string -> option Z.

Local Abbreviation parse_bbox := (parse_bbox py_float).
Local Abbreviation parse_delta := (parse_delta fromisoformat).
Local Abbreviation get_vessels := (get_vessels py_float fromisoformat).

(** X17. A bounding box is accepted only if it has exactly four
    comma-separated parts that [float] parses to finite numbers, with
    -180 <= minLon < maxLon <= 180 and -90 <= minLat < maxLat <= 90; the
    bounds used by the query are those numbers, in the order minLon,
    minLat, maxLon, maxLat. *)
Theorem accepted_bbox_is_well_formed (bbox : string)
    (min_lon min_lat max_lon max_lat : pyfloat) :
  parse_bbox bbox = Ok (min_lon, min_lat, max_lon, max_lat) ->
  exists s1 s2 s3 s4 a b c d,
    split_comma bbox = [s1; s2; s3; s4]
    /\ py_float s1 = Ok (Fin a) /\ py_float s2 = Ok (Fin b)
    /\ py_float s3 = Ok (Fin c) /\ py_float s4 = Ok (Fin d)
    /\ min_lon = Fin a /\ min_lat = Fin b
    /\ max_lon = Fin c /\ max_lat = Fin d
    /\ (-180 <= a)%Q /\ (a < c)%Q /\ (c <= 180)%Q
    /\ (-90 <= b)%Q /\ (b < d)%Q /\ (d <= 90)%Q.
Proof.
  unfold Api.parse_bbox.
  destruct (split_comma bbox) as [| s1 [| s2 [| s3 [| s4 [| ? ?]]]]];
    try discriminate.
  destruct (py_float s1) as [x1 |] eqn:P1; cbn [bind]; try discriminate.
  destruct (py_float s2) as [x2 |] eqn:P2; cbn [bind]; try discriminate.
  destruct (py_float s3) as [x3 |] eqn:P3; cbn [bind]; try discriminate.
  destruct (py_float s4) as [x4 |] eqn:P4; cbn [bind]; try discriminate.
  destruct (within (of_Z (-180)) x1 (of_Z 180)) eqn:E1; try discriminate.
  destruct (within (of_Z (-180)) x3 (of_Z 180)) eqn:E3; try discriminate.
  destruct (within (of_Z (-90)) x2 (of_Z 90)) eqn:E2; try discriminate.
  destruct (within (of_Z (-90)) x4 (of_Z 90)) eqn:E4; try discriminate.
  cbn [andb negb].
  destruct (fle x3 x1 || fle x4 x2) eqn:E5; try discriminate.
  intros H. injection H as <- <- <- <-.
  destruct (within_finite _ _ _ E1) as [a ->].
  destruct (within_finite _ _ _ E2) as [b ->].
  destruct (within_finite _ _ _ E3) as [c ->].
  destruct (within_finite _ _ _ E4) as [d ->].
  exists s1, s2, s3, s4, a, b, c, d.
  unfold within in *. simpl in E1, E2, E3, E4, E5.
  apply andb_true_iff in E1 as [E1 _], E2 as [E2 _],
    E3 as [_ E3], E4 as [_ E4].
  apply orb_false_iff in E5 as [E5 E6].
  apply Qle_bool_iff in E1, E2, E3, E4.
  assert (Hac : (a < c)%Q).
  { apply Qnot_le_lt. intros H. apply Qle_bool_iff in H. congruence. }
  assert (Hbd : (b < d)%Q).
  { apply Qnot_le_lt. intros H. apply Qle_bool_iff in H. congruence. }
  repeat (split; [reflexivity || assumption |]). assumption.
Qed.

(** X18. When [lastUpdateTime] is a non-empty string that parses, the
    answer lists exactly the vessels of the answer to the same request
    without the parameter that were observed after that time, newest
    first (in whichever order the database returns vessels observed at
    the same time), with their number as [count], the same server time
    and [is_delta] set; a request that fails without the parameter fails
    the same way with it. *)
Theorem delta_response_filters_full_response (bbox : string) (zoom : Z)
    (s : string) (t : Z) (d : database) (db_now utcnow : Z) :
  s <> EmptyString ->
  fromisoformat (replace s "Z" "+00:00") = Some t ->
  match get_vessels bbox zoom None d db_now utcnow with
  | Http200 full =>
      exists delta,
        get_vessels bbox zoom (Some s) d db_now utcnow = Http200 delta
        /\ Permutation (vessels delta)
             (filter (fun v => t <? last_updated v) (vessels full))
        /\ newest_first (vessels delta)
        /\ count delta
           = Z.of_nat
               (List.length
                  (filter (fun v => t <? last_updated v) (vessels full)))
        /\ server_time delta = server_time full
        /\ is_delta delta = true
  | failure => get_vessels bbox zoom (Some s) d db_now utcnow = failure
  end.
Proof.
  intros Hs Ht. unfold Api.get_vessels.
  rewrite (parse_delta_given fromisoformat s t Hs Ht). cbn [Api.parse_delta].
  destruct (negb _); trivial.
  destruct (Api.parse_bbox py_float bbox) as [[[[x1 x2] x3] x4] |]; trivial.
  destruct d; trivial.
  eexists. split; [reflexivity |]. cbn [vessels server_time count is_delta].
  split; [apply query_delta |].
  split; [apply order_desc_sorted |].
  split; [| split; reflexivity].
  f_equal. apply Permutation_length, query_delta.
Qed.

(** X19. The viewport never lists more vessels than the health check
    counts on the same table, and [count] is the number of vessels
    listed. *)
Theorem viewport_count_is_bounded_by_health_count (bbox : string) (zoom : Z)
    (last_update_time : option string) (d : database)
    (db_now utcnow utcnow' : Z) (body : vessels_response)
    (timestamp n : Z) :
  get_vessels bbox zoom last_update_time d db_now utcnow = Http200 body ->
  health_check d utcnow' = Healthy timestamp n ->
  count body = Z.of_nat (List.length (vessels body)) /\ count body <= n.
Proof.
  unfold Api.get_vessels, health_check.
  destruct (negb _); try discriminate.
  destruct (Api.parse_bbox py_float bbox) as [[[[x1 x2] x3] x4] |];
    try discriminate.
  destruct (Api.parse_delta fromisoformat last_update_time) as [dt isd].
  destruct d as [| | rows]; try discriminate.
  intros H Hh. injection H as <-. injection Hh as _ <-.
  cbn [count vessels]. split; trivial. unfold query.
  rewrite (Permutation_length (order_desc_perm _)).
  apply inj_le. apply filter_length_le.
Qed.

(** X20. If no two rows of the table have the same [mmsi], no two
    vessels of an answer have. *)
Theorem response_lists_each_vessel_once (bbox : string) (zoom : Z)
    (last_update_time : option string) (rows : list vessel)
    (db_now utcnow : Z) (body : vessels_response) :
  NoDup (map mmsi rows) ->
  get_vessels bbox zoom last_update_time (Serving rows) db_now utcnow
  = Http200 body ->
  NoDup (map mmsi (vessels body)).
Proof.
  intros Hnd. unfold Api.get_vessels.
  destruct (negb _); try discriminate.
  destruct (Api.parse_bbox py_float bbox) as [[[[x1 x2] x3] x4] |];
    try discriminate.
  destruct (Api.parse_delta fromisoformat last_update_time) as [dt isd].
  intros H. injection H as <-. cbn [vessels]. unfold query.
  eapply Permutation_NoDup.
  - apply Permutation_map. symmetry. apply order_desc_perm.
  - now apply NoDup_map_filter.
Qed.
End HandlerMore.

Lemma accepted_bbox_is_well_formed_witness :
  exists s1 s2 s3 s4 a b c d,
    split_comma ApiScenario.north_sea = [s1; s2; s3; s4]
    /\ Instances.decimal s1 = Ok (Fin a) /\ Instances.decimal s2 = Ok (Fin b)
    /\ Instances.decimal s3 = Ok (Fin c) /\ Instances.decimal s4 = Ok (Fin d)
    /\ Fin 0 = Fin a /\ Fin 50 = Fin b /\ Fin 10 = Fin c /\ Fin 60 = Fin d
    /\ (-180 <= a)%Q /\ (a < c)%Q /\ (c <= 180)%Q
    /\ (-90 <= b)%Q /\ (b < d)%Q /\ (d <= 90)%Q.
Proof.
  apply (accepted_bbox_is_well_formed Instances.decimal ApiScenario.north_sea
           (Fin 0) (Fin 50) (Fin 10) (Fin 60)).
  vm_compute. reflexivity.
Defined.

Lemma delta_response_filters_full_response_witness :
  exists full delta,
    get_vessels Instances.decimal Instances.timestamp ApiScenario.north_sea 10
      None (Serving ApiScenario.rows) (ApiScenario.at_time 12 0 0)
      (ApiScenario.at_time 12 0 1) = Http200 full
    /\ get_vessels Instances.decimal Instances.timestamp
         ApiScenario.north_sea 10 (Some "2024-01-01T11:59:30Z"%string)
         (Serving ApiScenario.rows) (ApiScenario.at_time 12 0 0)
         (ApiScenario.at_time 12 0 1) = Http200 delta
    /\ Permutation (vessels delta)
         (filter (fun v => ApiScenario.at_time 11 59 30 <? last_updated v)
            (vessels full))
    /\ StronglySorted (fun x y : vessel => last_updated y <= last_updated x)
         (vessels delta)
    /\ count delta
       = Z.of_nat
           (List.length
              (filter (fun v => ApiScenario.at_time 11 59 30
                                <? last_updated v) (vessels full)))
    /\ server_time delta = server_time full
    /\ is_delta delta = true.
Proof.
  pose proof (delta_response_filters_full_response Instances.decimal
                Instances.timestamp ApiScenario.north_sea 10
                "2024-01-01T11:59:30Z"%string (ApiScenario.at_time 11 59 30)
                (Serving ApiScenario.rows) (ApiScenario.at_time 12 0 0)
                (ApiScenario.at_time 12 0 1)) as H.
  destruct (get_vessels Instances.decimal Instances.timestamp
              ApiScenario.north_sea 10 None (Serving ApiScenario.rows)
              (ApiScenario.at_time 12 0 0) (ApiScenario.at_time 12 0 1))
    as [full | | |] eqn:E; try (vm_compute in E; discriminate).
  destruct H as (delta & Hd & Hrest).
  - discriminate.
  - vm_compute. reflexivity.
  - exists full, delta. split; trivial. split; trivial.
Defined.

Lemma viewport_count_is_bounded_by_health_count_witness :
  exists body,
    get_vessels Instances.decimal Instances.timestamp ApiScenario.north_sea 10
      None (Serving ApiScenario.rows) (ApiScenario.at_time 12 0 0)
      (ApiScenario.at_time 12 0 1) = Http200 body
    /\ count body = Z.of_nat (List.length (vessels body))
    /\ count body <= 4.
Proof.
  destruct (get_vessels Instances.decimal Instances.timestamp
              ApiScenario.north_sea 10 None (Serving ApiScenario.rows)
              (ApiScenario.at_time 12 0 0) (ApiScenario.at_time 12 0 1))
    as [body | | |] eqn:E; try (vm_compute in E; discriminate).
  exists body. split; trivial.
  apply (viewport_count_is_bounded_by_health_count Instances.decimal
           Instances.timestamp ApiScenario.north_sea 10 None
           (Serving ApiScenario.rows) (ApiScenario.at_time 12 0 0)
           (ApiScenario.at_time 12 0 1) (ApiScenario.at_time 12 0 2) body
           (ApiScenario.at_time 12 0 2) 4 E).
  reflexivity.
Defined.

Lemma response_lists_each_vessel_once_witness :
  exists body,
    get_vessels Instances.decimal Instances.timestamp ApiScenario.north_sea 10
      None (Serving ApiScenario.rows) (ApiScenario.at_time 12 0 0)
      (ApiScenario.at_time 12 0 1) = Http200 body
    /\ NoDup (map mmsi (vessels body)).
Proof.
  destruct (get_vessels Instances.decimal Instances.timestamp
              ApiScenario.north_sea 10 None (Serving ApiScenario.rows)
              (ApiScenario.at_time 12 0 0) (ApiScenario.at_time 12 0 1))
    as [body | | |] eqn:E; try (vm_compute in E; discriminate).
  exists body. split; trivial.
  apply (response_lists_each_vessel_once Instances.decimal
           Instances.timestamp ApiScenario.north_sea 10 None
           ApiScenario.rows (ApiScenario.at_time 12 0 0)
           (ApiScenario.at_time 12 0 1) body); trivial.
  simpl. repeat constructor; simpl; intuition discriminate.
Defined.


End ApiMore.
